(** * PlaySafe API

    A shallow embedding of the daycare-management REST service: the
    relational schema with its foreign-key actions, the twenty entity
    route handlers and the health route, the Prometheus latency
    histogram with its middleware and scrape routes, and the Express
    router that ties them together.

    Conventions of the model.
    - The database server is reachable: the only storage errors are
      the ones a statement and the stored rows determine (malformed
      input text, type mismatch, constraint violation).
    - Text is ASCII; a statement carrying other bytes is outside the
      model, and so is input text whose reading depends on the server
      version.  Such requests make a handler return [None].
    - A request body is a JSON object whose fields are scalars, numbers
      being integral. *)

From Stdlib Require Import ZArith QArith String Ascii DecimalString DecimalPos.
From stdpp Require Import base list gmap strings sorting.

Open Scope string_scope.
Open Scope Z_scope.

(** ** Text *)

Module Text.

Definition is_digit (c : ascii) : bool :=
  (48 <=? nat_of_ascii c)%nat && (nat_of_ascii c <=? 57)%nat.

(** The longest prefix of decimal digits, and what follows it. *)
Fixpoint span_digits (s : string) : string * string :=
  match s with
  | String c r =>
      if is_digit c
      then let '(d, t) := span_digits r in (String c d, t)
      else ("", s)
  | EmptyString => ("", "")
  end.

(** The value of a nonempty run of decimal digits and nothing else. *)
Definition unsigned_decimal (s : string) : option Z :=
  match s with
  | EmptyString => None
  | _ => Z.of_uint <$> NilEmpty.uint_of_string s
  end.

Definition newline : string := String (ascii_of_nat 10) "".

Fixpoint strip_prefix (p s : string) : option string :=
  match p, s with
  | EmptyString, _ => Some s
  | String a p', String b s' => if Ascii.eqb a b then strip_prefix p' s' else None
  | String _ _, EmptyString => None
  end.

(** [s] cut at the first occurrence of [sep]. *)
Definition split_first (sep s : string) : option (string * string) :=
  match String.index 0 sep s with
  | Some i =>
      let j := (i + String.length sep)%nat in
      Some (substring 0 i s, substring j (String.length s - j) s)
  | None => None
  end.

(** [avoids a s]: the character [a] does not occur in [s]. *)
Fixpoint avoids (a : ascii) (s : string) : bool :=
  match s with
  | String c r => negb (Ascii.eqb c a) && avoids a r
  | EmptyString => true
  end.

Fixpoint all_digits (s : string) : bool :=
  match s with
  | String c r => is_digit c && all_digits r
  | EmptyString => true
  end.

End Text.

(** ** JavaScript values and the coercions the handlers rely on *)

Module JS.

(** The values a JSON request body can hold in a field, and the ones
    the handlers compute from them.  A number is integral and small
    enough (below 10^21 in magnitude) for [ToString] to print it as a
    plain decimal. *)
Inductive value : Type :=
| Undefined
| Null
| NaN
| Bool (b : bool)
| Num (n : Z)
| Str (s : string).

#[global] Instance value_eq_dec : EqDecision value.
Proof. solve_decision. Defined.

(** ToBoolean: what [if (v)] and [!v] look at. *)
Definition truthy (v : value) : bool :=
  match v with
  | Undefined | Null | NaN => false
  | Bool b => b
  | Num n => negb (n =? 0)
  | Str s => negb (String.eqb s "")
  end.

(** The [!] operator. *)
Definition not (v : value) : bool := negb (truthy v).

(** ToString, as applied by a template literal and by [toString()]. *)
Definition toString (v : value) : string :=
  match v with
  | Undefined => "undefined"
  | Null => "null"
  | NaN => "NaN"
  | Bool true => "true"
  | Bool false => "false"
  | Num n => NilZero.string_of_int (Z.to_int n)
  | Str s => s
  end.

Fixpoint skip_space (s : string) : string :=
  match s with
  | String c r => if Ascii.is_space c then skip_space r else s
  | EmptyString => s
  end.

(** [parseInt(s, 10)]: leading blanks, a sign, and the longest run of
    decimal digits; [NaN] when there is no digit. *)
Definition parseInt (s : string) : value :=
  let s := skip_space s in
  let '(sign, s) :=
    match s with
    | String "-" r => (-1, r)
    | String "+" r => (1, r)
    | _ => (1, s)
    end in
  match Text.unsigned_decimal (fst (Text.span_digits s)) with
  | Some n => Num (sign * n)
  | None => NaN
  end.

(** A JSON object, as [express.json()] leaves it in [req.body]. *)
Abbreviation object := (gmap string value).

(** Property access [o.k]; an absent property reads as [undefined]. *)
Definition get (o : object) (k : string) : value := default Undefined (o !! k).

End JS.

(** ** Text input of the database server

    A parameter reaches the server as text (or as NULL) and is read
    according to the type of the column it is compared with or
    assigned to. *)

Module Pg.

Inductive parsed (A : Type) : Type :=
| Accepted (a : A)
| Rejected
| Unmodelled.
Arguments Accepted {A} a.
Arguments Rejected {A}.
Arguments Unmodelled {A}.

Definition int4_min : Z := - 2 ^ 31.
Definition int4_max : Z := 2 ^ 31 - 1.
Definition in_int4 (n : Z) : bool := (int4_min <=? n) && (n <=? int4_max).

Fixpoint has_digit (s : string) : bool :=
  match s with
  | String c r => Text.is_digit c || has_digit r
  | EmptyString => false
  end.

Definition signed_decimal (s : string) : option Z :=
  match s with
  | String "-" r => Z.opp <$> Text.unsigned_decimal r
  | _ => Text.unsigned_decimal s
  end.

(** Input of an INT column.  A plain decimal is accepted when it fits
    32 bits and rejected when it does not; text without any digit is
    rejected; other spellings (blanks, a plus sign, digit separators)
    are left to the server. *)
Definition int4in (s : string) : parsed Z :=
  match signed_decimal s with
  | Some n => if in_int4 n then Accepted n else Rejected
  | None => if has_digit s then Unmodelled else Rejected
  end.

Definition printable (c : ascii) : bool :=
  (32 <=? nat_of_ascii c)%nat && (nat_of_ascii c <=? 126)%nat.

Fixpoint plain_text (s : string) : bool :=
  match s with
  | String c r => printable c && plain_text r
  | EmptyString => true
  end.

Fixpoint all_blank (s : string) : bool :=
  match s with
  | String c r => Ascii.eqb c " " && all_blank r
  | EmptyString => true
  end.

(** Assignment to a VARCHAR(n) column: text that fits is stored as it
    is, excess blanks are cut off, any other excess is an error. *)
Definition varchar (n : nat) (s : string) : parsed string :=
  if negb (plain_text s) then Unmodelled
  else if (String.length s <=? n)%nat then Accepted s
  else if all_blank (substring n (String.length s - n) s)
       then Accepted (substring 0 n s)
       else Rejected.

Record date : Type := Date { year : Z; month : Z; day : Z }.

#[global] Instance date_eq_dec : EqDecision date.
Proof. solve_decision. Defined.

Definition leap (y : Z) : bool :=
  ((y mod 4 =? 0) && negb (y mod 100 =? 0)) || (y mod 400 =? 0).

Definition days_in_month (y m : Z) : Z :=
  if m =? 2 then (if leap y then 29 else 28)
  else if (m =? 4) || (m =? 6) || (m =? 9) || (m =? 11) then 30
  else 31.

(** Input of a DATE column, for the ISO spelling YYYY-MM-DD: a
    calendar date is accepted, a month or day out of range is
    rejected.  Every other spelling is left to the server. *)
Definition date_in (s : string) : parsed date :=
  if negb (String.length s =? 10)%nat then Unmodelled
  else
    match Text.unsigned_decimal (substring 0 4 s),
          Text.unsigned_decimal (substring 5 2 s),
          Text.unsigned_decimal (substring 8 2 s) with
    | Some y, Some m, Some d =>
        if negb (String.eqb (substring 4 1 s) "-"
                 && String.eqb (substring 7 1 s) "-") then Unmodelled
        else if y =? 0 then Unmodelled
        else if (1 <=? m) && (m <=? 12) && (1 <=? d) && (d <=? days_in_month y m)
             then Accepted (Date y m d)
             else Rejected
    | _, _, _ => Unmodelled
    end.

End Pg.

Export Pg(parsed, Accepted, Rejected, Unmodelled).

(** ** The relational schema *)

Module Daycare.
Record row : Type :=
  Row { id : Z; name : string; address : option string;
        phone : option string; email : option string }.
End Daycare.

Module Classroom.
Record row : Type := Row { id : Z; name : string; daycare_id : option Z }.
End Classroom.

Module Parent.
Record row : Type :=
  Row { id : Z; name : string; phone : option string; email : option string }.
End Parent.

Module Child.
Record row : Type :=
  Row { id : Z; name : string; date_of_birth : Pg.date;
        classroom_id : option Z; daycare_id : option Z }.
End Child.

Module Enrollment.
Record row : Type := Row { id : Z; child_id : option Z; parent_id : option Z }.
End Enrollment.

#[global] Instance daycare_row_eq_dec : EqDecision Daycare.row.
Proof. solve_decision. Defined.
#[global] Instance classroom_row_eq_dec : EqDecision Classroom.row.
Proof. solve_decision. Defined.
#[global] Instance parent_row_eq_dec : EqDecision Parent.row.
Proof. solve_decision. Defined.
#[global] Instance child_row_eq_dec : EqDecision Child.row.
Proof. solve_decision. Defined.
#[global] Instance enrollment_row_eq_dec : EqDecision Enrollment.row.
Proof. solve_decision. Defined.

(** The stored state: one heap of rows per table. *)
Record database : Type :=
  Database {
    daycares : list Daycare.row;
    classrooms : list Classroom.row;
    parents : list Parent.row;
    children : list Child.row;
    enrollments : list Enrollment.row
  }.

#[global] Instance database_eq_dec : EqDecision database.
Proof. solve_decision. Defined.

Inductive table : Type := daycare | classroom | parent | child | enrollment.

#[global] Instance table_eq_dec : EqDecision table.
Proof. solve_decision. Defined.

(** A row as the driver hands it to the handler.  The one row of a
    [COUNT] query carries its total as text: the driver returns a
    64-bit integer column as a string. *)
Inductive row : Type :=
| OfDaycare (r : Daycare.row)
| OfClassroom (r : Classroom.row)
| OfParent (r : Parent.row)
| OfChild (r : Child.row)
| OfEnrollment (r : Enrollment.row)
| OfCount (column : string) (total : string).

#[global] Instance row_eq_dec : EqDecision row.
Proof. solve_decision. Defined.

(** The [id] column of a row. *)
Definition row_id (r : row) : Z :=
  match r with
  | OfDaycare r => Daycare.id r
  | OfClassroom r => Classroom.id r
  | OfParent r => Parent.id r
  | OfChild r => Child.id r
  | OfEnrollment r => Enrollment.id r
  | OfCount _ _ => 0
  end.

(** [SELECT * FROM t], in heap order. *)
Definition rows_of (t : table) (db : database) : list row :=
  match t with
  | daycare => OfDaycare <$> daycares db
  | classroom => OfClassroom <$> classrooms db
  | parent => OfParent <$> parents db
  | child => OfChild <$> children db
  | enrollment => OfEnrollment <$> enrollments db
  end.

(** The rows the seed script inserts. *)
Definition seed : database :=
  {| daycares :=
       [ Daycare.Row 1 "Happy Kids Daycare" (Some "123 Rainbow Street")
           (Some "555-111-2222") (Some "contact@happykids.com");
         Daycare.Row 2 "Little Stars Academy" (Some "45 Sunshine Ave")
           (Some "555-333-4444") (Some "info@littlestars.com") ];
     classrooms :=
       [ Classroom.Row 1 "Blue Butterflies" (Some 1);
         Classroom.Row 2 "Red Rockets" (Some 1);
         Classroom.Row 3 "Green Giraffes" (Some 2);
         Classroom.Row 4 "Yellow Lions" (Some 2) ];
     parents :=
       [ Parent.Row 1 "Alice Johnson" (Some "555-123-4567")
           (Some "alice.johnson@email.com");
         Parent.Row 2 "Brian Smith" (Some "555-234-5678")
           (Some "brian.smith@email.com");
         Parent.Row 3 "Catherine Lee" (Some "555-345-6789")
           (Some "catherine.lee@email.com");
         Parent.Row 4 "David Brown" (Some "555-456-7890")
           (Some "david.brown@email.com") ];
     children :=
       [ Child.Row 1 "Emily Johnson" (Pg.Date 2020 5 12) (Some 1) (Some 1);
         Child.Row 2 "Liam Smith" (Pg.Date 2019 8 3) (Some 2) (Some 1);
         Child.Row 3 "Olivia Lee" (Pg.Date 2021 2 25) (Some 3) (Some 2);
         Child.Row 4 "Noah Brown" (Pg.Date 2020 11 17) (Some 4) (Some 2);
         Child.Row 5 "Sophia Smith" (Pg.Date 2022 1 30) (Some 2) (Some 1) ];
     enrollments :=
       [ Enrollment.Row 1 (Some 1) (Some 1);
         Enrollment.Row 2 (Some 2) (Some 2);
         Enrollment.Row 3 (Some 3) (Some 3);
         Enrollment.Row 4 (Some 4) (Some 4);
         Enrollment.Row 5 (Some 5) (Some 2) ] |}.

(** ** Deleting rows, with the foreign-key actions of the schema *)

(** [refers fk ids]: the foreign key [fk] points at one of [ids]. *)
Definition refers (fk : option Z) (ids : list Z) : Prop :=
  match fk with
  | Some k => k ∈ ids
  | None => False
  end.

#[global] Instance refers_dec fk ids : Decision (refers fk ids).
Proof. destruct fk; simpl; apply _. Defined.

Definition set_daycares (l : list Daycare.row) (db : database) : database :=
  Database l (classrooms db) (parents db) (children db) (enrollments db).
Definition set_classrooms (l : list Classroom.row) (db : database) : database :=
  Database (daycares db) l (parents db) (children db) (enrollments db).
Definition set_parents (l : list Parent.row) (db : database) : database :=
  Database (daycares db) (classrooms db) l (children db) (enrollments db).
Definition set_children (l : list Child.row) (db : database) : database :=
  Database (daycares db) (classrooms db) (parents db) l (enrollments db).
Definition set_enrollments (l : list Enrollment.row) (db : database) : database :=
  Database (daycares db) (classrooms db) (parents db) (children db) l.

(** [enrollment.child_id ... ON DELETE CASCADE]. *)
Definition cascade_child (gone : list Z) (db : database) : database :=
  set_enrollments
    (filter (λ e, ¬ refers (Enrollment.child_id e) gone) (enrollments db)) db.

(** [enrollment.parent_id ... ON DELETE CASCADE]. *)
Definition cascade_parent (gone : list Z) (db : database) : database :=
  set_enrollments
    (filter (λ e, ¬ refers (Enrollment.parent_id e) gone) (enrollments db)) db.

Definition null_classroom (gone : list Z) (c : Child.row) : Child.row :=
  if decide (refers (Child.classroom_id c) gone)
  then Child.Row (Child.id c) (Child.name c) (Child.date_of_birth c) None
         (Child.daycare_id c)
  else c.

(** [child.classroom_id ... ON DELETE SET NULL]. *)
Definition set_null_classroom (gone : list Z) (db : database) : database :=
  set_children (null_classroom gone <$> children db) db.

Section Delete.
Context {A : Type} (P : A → Prop) `{!∀ x, Decision (P x)}.

(** The rows a [DELETE ... WHERE P] removes, and the ones it leaves. *)
Definition hit (l : list A) : list A := filter P l.
Definition kept (l : list A) : list A := filter (λ x, ¬ P x) l.
End Delete.

Definition drop_children (P : Child.row → Prop) `{!∀ x, Decision (P x)}
    (db : database) : database :=
  cascade_child (Child.id <$> hit P (children db))
    (set_children (kept P (children db)) db).

Definition drop_classrooms (P : Classroom.row → Prop) `{!∀ x, Decision (P x)}
    (db : database) : database :=
  set_null_classroom (Classroom.id <$> hit P (classrooms db))
    (set_classrooms (kept P (classrooms db)) db).

(** [classroom.daycare_id] and [child.daycare_id], both
    [ON DELETE CASCADE]. *)
Definition cascade_daycare (gone : list Z) (db : database) : database :=
  drop_children (λ c, refers (Child.daycare_id c) gone)
    (drop_classrooms (λ c, refers (Classroom.daycare_id c) gone) db).

(** [DELETE FROM t WHERE P(id)]: the new state and the number of rows
    removed from [t] itself. *)
Definition delete_where (t : table) (P : Z → Prop) `{!∀ n, Decision (P n)}
    (db : database) : database * nat :=
  match t with
  | daycare =>
      let rm := hit (λ r, P (Daycare.id r)) (daycares db) in
      (cascade_daycare (Daycare.id <$> rm)
         (set_daycares (kept (λ r, P (Daycare.id r)) (daycares db)) db),
       length rm)
  | classroom =>
      (drop_classrooms (λ r, P (Classroom.id r)) db,
       length (hit (λ r, P (Classroom.id r)) (classrooms db)))
  | parent =>
      let rm := hit (λ r, P (Parent.id r)) (parents db) in
      (cascade_parent (Parent.id <$> rm)
         (set_parents (kept (λ r, P (Parent.id r)) (parents db)) db),
       length rm)
  | child =>
      (drop_children (λ r, P (Child.id r)) db,
       length (hit (λ r, P (Child.id r)) (children db)))
  | enrollment =>
      (set_enrollments (kept (λ r, P (Enrollment.id r)) (enrollments db)) db,
       length (hit (λ r, P (Enrollment.id r)) (enrollments db)))
  end.


(** ** Statements and their execution *)

(** What the [catch] clause of a handler can receive: an error raised
    by the server for a statement, or a JavaScript [TypeError]. *)
Inductive error : Type :=
| InvalidTextRepresentation
| StringDataRightTruncation
| NotNullViolation
| ForeignKeyViolation
| DatatypeMismatch
| UndefinedFunction
| NumericValueOutOfRange
| TypeError.

(** The driver's result object: [result.rows] and [result.rowCount]. *)
Record result : Type := Result { rows : list row; rowCount : nat }.

(** A bound parameter as it travels to the server: text, or NULL. *)
Abbreviation param := (option string).

(** [prepareValue] of the driver: [null] and [undefined] become NULL,
    a scalar is sent as its [toString()]. *)
Definition prepareValue (v : JS.value) : param :=
  match v with
  | JS.Undefined | JS.Null => None
  | _ => Some (JS.toString v)
  end.

(** The statements of the parameterised handlers, one constructor per
    statement text. *)
Inductive statement : Type :=
| SelectCount (alias : string) (t : table)
    (* SELECT COUNT( * ) AS alias FROM t *)
| SelectAll (t : table)
    (* SELECT * FROM t ORDER BY id ASC *)
| SelectById (t : table) (id : param)
    (* SELECT * FROM t WHERE id = $1 *)
| DeleteById (t : table) (id : param)
    (* DELETE FROM t WHERE id = $1 *)
| UpdateDaycare (name address phone email id : param)
    (* UPDATE daycare SET name = $1, address = $2, phone = $3, email = $4
       WHERE id = $5 RETURNING * *)
| UpdateClassroom (name daycare_id id : param)
    (* UPDATE classroom SET name = $1, daycare_id = $2 WHERE id = $3
       RETURNING * *)
| UpdateChild (name date_of_birth classroom_id daycare_id id : param)
    (* UPDATE child SET name = $1, date_of_birth = $2, classroom_id = $3,
       daycare_id = $4 WHERE id = $5 RETURNING * *)
| UpdateParent (name phone email id : param)
    (* UPDATE parent SET name = $1, phone = $2, email = $3 WHERE id = $4
       RETURNING * *).

(** What a query comes to: [None] when the statement is outside the
    model, otherwise the state it leaves and either the error it
    raises or its result. *)
Abbreviation reply := (option (database * (error + result))).

Definition raised (db : database) (e : error) : reply := Some (db, inl e).
Definition returned (db : database) (l : list row) : reply :=
  Some (db, inr (Result l (length l))).

(** A parameter read at bind time; NULL is a value of every type. *)
Definition bound {A : Type} (read : string → parsed A) (p : param)
    (db : database) (k : option A → reply) : reply :=
  match p with
  | None => k None
  | Some s =>
      match read s with
      | Accepted a => k (Some a)
      | Rejected => raised db InvalidTextRepresentation
      | Unmodelled => None
      end
  end.

(** A text parameter assigned to a VARCHAR(n) column.  The length is
    checked when a row is written; for a statement that matches no row
    the model does not say whether over-long text is an error. *)
Definition assigned (n : nat) (p : param) (matched : bool)
    (db : database) (k : option string → reply) : reply :=
  match p with
  | None => k None
  | Some s =>
      match Pg.varchar n s with
      | Accepted a => k (Some a)
      | Rejected => if matched then raised db StringDataRightTruncation else None
      | Unmodelled => None
      end
  end.

(** A NOT NULL column. *)
Definition not_null {A : Type} (v : option A) (db : database)
    (k : A → reply) : reply :=
  match v with
  | Some a => k a
  | None => raised db NotNullViolation
  end.

(** A foreign key is checked against the ids of the referenced table;
    NULL references nothing and passes. *)
Definition references (fk : option Z) (ids : list Z) (db : database)
    (k : reply) : reply :=
  match fk with
  | Some n => if decide (n ∈ ids) then k else raised db ForeignKeyViolation
  | None => k
  end.

(** [ORDER BY id ASC]. *)
Definition id_le (a b : row) : Prop := row_id a ≤ row_id b.

#[global] Instance id_le_dec : RelDecision id_le.
Proof. intros a b. unfold id_le. apply _. Defined.

Definition ordered_by_id (l : list row) : list row := merge_sort id_le l.

Definition count_text (l : list row) : string :=
  NilZero.string_of_int (Z.to_int (Z.of_nat (length l))).

(** [UPDATE t SET ... WHERE id = n RETURNING *] on one heap: the rows
    with that id are replaced by [new]. *)
Definition rewrite_rows {A : Type} (id : A → Z) (n : option Z) (new : A → A)
    (l : list A) : list A :=
  (λ r, if decide (Some (id r) = n) then new r else r) <$> l.

Definition matching {A : Type} (id : A → Z) (n : option Z) (l : list A) : list A :=
  filter (λ r, Some (id r) = n) l.

Definition any {A : Type} (l : list A) : bool :=
  match l with [] => false | _ => true end.

(** Modelled from the spec: [pool], exported by [./db], is not among
    the sources; the spec has it as a connection pool that executes
    parameterised statements against the relational schema and owns
    no logic of its own.  [pool.query(text, values)] is therefore the
    statement run against the schema above: its column types, NOT
    NULL and VARCHAR limits, foreign keys and their ON DELETE actions.
    A statement that fails leaves the state as it was. *)
Definition pool_query (q : statement) (db : database) : reply :=
  match q with
  | SelectCount alias t =>
      returned db [OfCount alias (count_text (rows_of t db))]
  | SelectAll t =>
      returned db (ordered_by_id (rows_of t db))
  | SelectById t id =>
      bound Pg.int4in id db (λ n,
        returned db (filter (λ r, Some (row_id r) = n) (rows_of t db)))
  | DeleteById t id =>
      bound Pg.int4in id db (λ n,
        let '(db', count) := delete_where t (λ k, Some k = n) db in
        Some (db', inr (Result [] count)))
  | UpdateDaycare name address phone email id =>
      bound Pg.int4in id db (λ n,
        let old := matching Daycare.id n (daycares db) in
        assigned 150 name (any old) db (λ name,
        assigned 255 address (any old) db (λ address,
        assigned 20 phone (any old) db (λ phone,
        assigned 150 email (any old) db (λ email,
          if any old then
            not_null name db (λ name,
              let new r := Daycare.Row (Daycare.id r) name address phone email in
              Some (set_daycares (rewrite_rows Daycare.id n new (daycares db)) db,
                    inr (Result (OfDaycare ∘ new <$> old) (length old))))
          else returned db [])))))
  | UpdateClassroom name daycare_id id =>
      bound Pg.int4in daycare_id db (λ daycare_id,
      bound Pg.int4in id db (λ n,
        let old := matching Classroom.id n (classrooms db) in
        assigned 100 name (any old) db (λ name,
          if any old then
            not_null name db (λ name,
            references daycare_id (Daycare.id <$> daycares db) db (
              let new r := Classroom.Row (Classroom.id r) name daycare_id in
              Some (set_classrooms
                      (rewrite_rows Classroom.id n new (classrooms db)) db,
                    inr (Result (OfClassroom ∘ new <$> old) (length old)))))
          else returned db [])))
  | UpdateChild name date_of_birth classroom_id daycare_id id =>
      bound Pg.date_in date_of_birth db (λ date_of_birth,
      bound Pg.int4in classroom_id db (λ classroom_id,
      bound Pg.int4in daycare_id db (λ daycare_id,
      bound Pg.int4in id db (λ n,
        let old := matching Child.id n (children db) in
        assigned 100 name (any old) db (λ name,
          if any old then
            not_null name db (λ name,
            not_null date_of_birth db (λ date_of_birth,
            references classroom_id (Classroom.id <$> classrooms db) db (
            references daycare_id (Daycare.id <$> daycares db) db (
              let new r :=
                Child.Row (Child.id r) name date_of_birth classroom_id daycare_id in
              Some (set_children (rewrite_rows Child.id n new (children db)) db,
                    inr (Result (OfChild ∘ new <$> old) (length old)))))))
          else returned db [])))))
  | UpdateParent name phone email id =>
      bound Pg.int4in id db (λ n,
        let old := matching Parent.id n (parents db) in
        assigned 100 name (any old) db (λ name,
        assigned 20 phone (any old) db (λ phone,
        assigned 150 email (any old) db (λ email,
          if any old then
            not_null name db (λ name,
              let new r := Parent.Row (Parent.id r) name phone email in
              Some (set_parents (rewrite_rows Parent.id n new (parents db)) db,
                    inr (Result (OfParent ∘ new <$> old) (length old))))
          else returned db []))))
  end.


(** ** Statement text assembled by interpolation

    The three enrollment handlers that take an id splice request data
    into the statement text and send it without parameters.  The server
    then reads whatever the text says; several statements separated by
    semicolons run one after the other in one transaction, and the
    driver returns one result per statement. *)

Inductive literal : Type :=
| IntLit (n : Z)
| BoolLit (b : bool)
| NullLit.

Inductive simple : Type :=
| SelectEnrollment (id : Z) (stacked : option table)
    (* ... WHERE public.enrollment.id=<id> ORDER BY id ASC, or
       ... WHERE public.enrollment.id=<id>;DELETE FROM <t>;-- *)
| DeleteEnrollment (id : Z) (stacked : option table)
| UpdateEnrollment (child_id parent_id id : literal).

Import Text.

Definition read_literal (s : string) : option literal :=
  match Pg.signed_decimal s with
  | Some n => Some (IntLit n)
  | None =>
      if String.eqb s "true" then Some (BoolLit true)
      else if String.eqb s "false" then Some (BoolLit false)
      else if String.eqb s "null" then Some NullLit
      else None
  end.

Definition read_table (s : string) : option table :=
  if String.eqb s "daycare" then Some daycare
  else if String.eqb s "classroom" then Some classroom
  else if String.eqb s "parent" then Some parent
  else if String.eqb s "child" then Some child
  else if String.eqb s "enrollment" then Some enrollment
  else None.

(** What follows [id=] in a one-line statement whose text ends with
    [rest]: an unsigned integer and then either [rest] itself, or a
    stacked [DELETE FROM t] and a comment that hides [rest]. *)
Definition read_condition (rest s : string) : option (Z * option table) :=
  let '(d, t) := span_digits s in
  match Text.unsigned_decimal d with
  | None => None
  | Some n =>
      if String.eqb t rest then Some (n, None)
      else
        match strip_prefix ";DELETE FROM " t with
        | None => None
        | Some t =>
            match split_first ";--" t with
            | None => None
            | Some (name, comment) =>
                match read_table name, String.index 0 newline comment with
                | Some tbl, None => Some (n, Some tbl)
                | _, _ => None
                end
            end
        end
  end.

Definition select_enrollment_text (id : string) : string :=
  "SELECT * FROM public.enrollment WHERE public.enrollment.id=" ++ id
  ++ " ORDER BY id ASC".

Definition delete_enrollment_text (id : string) : string :=
  "DELETE FROM public.enrollment WHERE public.enrollment.id=" ++ id.

Definition update_enrollment_text (child_id parent_id id : string) : string :=
  "UPDATE public.enrollment" ++ newline
  ++ "       SET child_id = " ++ child_id ++ ", parent_id = " ++ parent_id ++ newline
  ++ "       WHERE id = " ++ id ++ newline
  ++ "       RETURNING *".

(** The server's reading of a statement text, for the texts the three
    templates can produce with the operands above. *)
Definition parse_simple (text : string) : option simple :=
  match strip_prefix "SELECT * FROM public.enrollment WHERE public.enrollment.id=" text with
  | Some s =>
      '(n, stacked) ← read_condition " ORDER BY id ASC" s;
      Some (SelectEnrollment n stacked)
  | None =>
  match strip_prefix "DELETE FROM public.enrollment WHERE public.enrollment.id=" text with
  | Some s =>
      '(n, stacked) ← read_condition "" s;
      Some (DeleteEnrollment n stacked)
  | None =>
      s ← strip_prefix ("UPDATE public.enrollment" ++ newline
                        ++ "       SET child_id = ") text;
      '(c, s) ← split_first ", parent_id = " s;
      '(p, s) ← split_first (newline ++ "       WHERE id = ") s;
      '(i, s) ← split_first (newline ++ "       RETURNING *") s;
      if String.eqb s "" then
        c ← read_literal c; p ← read_literal p; i ← read_literal i;
        Some (UpdateEnrollment c p i)
      else None
  end
  end.


(** An integer column assigned from a literal.  A literal of another
    type is refused when the statement is analysed; one that does not
    fit 32 bits is refused when a row is written (for a statement that
    matches no row the model does not say). *)
Definition assigned_literal (l : literal) (matched : bool) (db : database)
    (k : option Z → reply) : reply :=
  match l with
  | IntLit n =>
      if Pg.in_int4 n then k (Some n)
      else if matched then raised db NumericValueOutOfRange else None
  | BoolLit _ => raised db DatatypeMismatch
  | NullLit => k None
  end.

(** [WHERE id = <literal>]: NULL matches nothing, a boolean cannot be
    compared with an integer. *)
Definition compared_literal (l : literal) (db : database)
    (k : option Z → reply) : reply :=
  match l with
  | IntLit n => k (Some n)
  | BoolLit _ => raised db UndefinedFunction
  | NullLit => k None
  end.

Abbreviation replies := (option (database * (error + list result))).

(** A stacked [DELETE FROM t] removes every row of [t]. *)
Definition run_stacked (stacked : option table) (db : database)
    : database * list result :=
  match stacked with
  | None => (db, [])
  | Some t =>
      let '(db', count) := delete_where t (λ _, True) db in
      (db', [Result [] count])
  end.

Definition single (r : reply) : replies :=
  match r with
  | Some (db, inr res) => Some (db, inr [res])
  | Some (db, inl e) => Some (db, inl e)
  | None => None
  end.

(** Modelled from the spec: [pool.query(text)] of the absent [./db],
    called without parameters.  The text goes to the server as it is;
    all its statements run, in order and in one transaction, and the
    driver hands back one result per statement. *)
Definition simple_query (text : string) (db : database) : replies :=
  q ← parse_simple text;
  match q with
  | SelectEnrollment n stacked =>
      let found := filter (λ r, row_id r = n) (rows_of enrollment db) in
      let '(db', more) := run_stacked stacked db in
      Some (db', inr (Result (ordered_by_id found) (length found) :: more))
  | DeleteEnrollment n stacked =>
      let '(db1, count) := delete_where enrollment (λ k, k = n) db in
      let '(db2, more) := run_stacked stacked db1 in
      Some (db2, inr (Result [] count :: more))
  | UpdateEnrollment child_id parent_id id =>
      single (
        compared_literal id db (λ n,
          let old := matching Enrollment.id n (enrollments db) in
          assigned_literal child_id (any old) db (λ child_id,
          assigned_literal parent_id (any old) db (λ parent_id,
            if any old then
              references child_id (Child.id <$> children db) db (
              references parent_id (Parent.id <$> parents db) db (
                let new r := Enrollment.Row (Enrollment.id r) child_id parent_id in
                Some (set_enrollments
                        (rewrite_rows Enrollment.id n new (enrollments db)) db,
                      inr (Result (OfEnrollment ∘ new <$> old) (length old)))))
            else returned db []))))
  end.

(** ** The handler monad: state of the database, exceptions, and
    requests outside the model *)

Definition M (A : Type) : Type := database → option (database * (error + A)).

Definition ret {A : Type} (a : A) : M A := λ db, Some (db, inr a).

Definition throw {A : Type} (e : error) : M A := λ db, Some (db, inl e).

Definition bind {A B : Type} (m : M A) (k : A → M B) : M B :=
  λ db,
    match m db with
    | Some (db', inr a) => k a db'
    | Some (db', inl e) => Some (db', inl e)
    | None => None
    end.

(** [try { body } catch (err) { handler }]. *)
Definition try_catch {A : Type} (body : M A) (handler : error → M A) : M A :=
  λ db,
    match body db with
    | Some (db', inl e) => handler e db'
    | r => r
    end.

Notation "'await' x := m ; k" := (bind m (λ x, k))
  (at level 10, x name, m at level 100, k at level 200,
   format "'[v' 'await'  x  :=  m ; '/' k ']'").

(** ** The latency histogram *)

Record histogram : Type :=
  Histogram {
    name : string;
    help : string;
    labelNames : list string;
    buckets : list Q
  }.

Definition httpDuration : histogram :=
  {| name := "http_request_duration_seconds";
     help := "Latência dos pedidos HTTP";
     labelNames := ["method"; "route"; "code"];
     buckets := [0.005; 0.01; 0.025; 0.05; 0.1; 0.25; 0.5; 1; 2; 5]%Q |}.

(** The label values of one time series, in the order of
    [labelNames]. *)
Record labels : Type := Labels { method_label : string; route_label : string; code_label : Z }.

#[global] Instance labels_eq_dec : EqDecision labels.
Proof. solve_decision. Defined.

(** What [observe] has recorded so far: label values and seconds. *)
Abbreviation observations := (list (labels * Q)).

Definition observe (l : labels) (seconds : Q) (reg : observations) : observations :=
  (reg ++ [(l, seconds)])%list.

(** One line of the text exposition. *)
Inductive sample : Type :=
| Bucket (l : labels) (le : option Q) (count : nat)
    (* name_bucket{le="...",...} count; [None] is le="+Inf" *)
| Sum (l : labels) (seconds : Q)
| Count (l : labels) (count : nat).

Definition sample_labels (s : sample) : labels :=
  match s with
  | Bucket l _ _ | Sum l _ | Count l _ => l
  end.

Definition series (reg : observations) : list labels := remove_dups (fst <$> reg).

Definition values_of (l : labels) (reg : observations) : list Q :=
  snd <$> filter (λ o, fst o = l) reg.

Definition at_most (b : Q) (vs : list Q) : nat :=
  length (filter (λ v, Qle_bool v b = true) vs).

(** The histogram part of [register.metrics()]: per time series the
    cumulative buckets, the [+Inf] bucket, the sum and the count.  The
    process metrics collected under the [playsafe_] prefix are not
    part of the model. *)
Definition exposition (h : histogram) (reg : observations) : list sample :=
  l ← series reg;
  let vs := values_of l reg in
  (((λ b, Bucket l (Some b) (at_most b vs)) <$> buckets h)
   ++ [Bucket l None (length vs); Sum l (foldr Qplus 0%Q vs); Count l (length vs)])%list.

(** ** Responses *)

Inductive body : Type :=
| Up
    (* { status: "UP" } *)
| Listing (key : string) (count : JS.value) (data : list row)
    (* { <key>: count, data } *)
| Data (data : list row)
    (* { data } *)
| NotFound (message : string)
    (* { status: "not_found", message } *)
| BadRequest (message : string)
    (* { status: "error", message } *)
| Failure (e : error)
    (* { status: "error", error: err.message } *)
| Updated (message : string) (updated_data : option row)
    (* { status: "success", message, updated_data }; [None] is
       [undefined], which JSON leaves out *)
| Deleted (message : string)
    (* { status: "success", message } *)
| Metrics (samples : list sample)
    (* the text exposition of the registry *)
| CannotRoute
    (* the framework's own answer when no route matches *).

Record response : Type := Response { status : Z; payload : body }.

(** [res.status(code).json(b)]; plain [res.json(b)] answers 200. *)
Definition json (code : Z) (b : body) : M response := ret (Response code b).

(** [count.rows[0][k]] on the result of a COUNT query. *)
Definition first_total (k : string) (res : result) : M JS.value :=
  match rows res with
  | OfCount column total :: _ =>
      ret (if String.eqb column k then JS.Str total else JS.Undefined)
  | [] => throw TypeError
  | _ :: _ => λ _, None
  end.

(** ** Route handlers *)

Section Handlers.
Import JS.

(** [GET /health]. *)
Definition health : M response := json 200 Up.

(** The list handler of daycares, classrooms, children and parents:
    a COUNT query, then the rows, the count going through [parseInt]. *)
Definition list_rows (t : table) (alias key : string) : M response :=
  try_catch
    (await count := pool_query (SelectCount alias t);
     await data := pool_query (SelectAll t);
     await total := first_total alias count;
     json 200 (Listing key (parseInt (toString total)) (rows data)))
    (λ err, json 500 (Failure err)).

Definition get_daycares : M response :=
  list_rows daycare "total_daycares" "daycares_count".
Definition get_classrooms : M response :=
  list_rows classroom "total_classrooms" "classrooms_count".
Definition get_children : M response :=
  list_rows child "total_children" "children_count".
Definition get_parents : M response :=
  list_rows parent "total_parents" "parents_count".

(** [GET /get_enrollments]: the count is passed on as the driver
    returned it. *)
Definition get_enrollments : M response :=
  try_catch
    (await count := pool_query (SelectCount "total_enrollments" enrollment);
     await data := pool_query (SelectAll enrollment);
     await total := first_total "total_enrollments" count;
     json 200 (Listing "enrollments_count" total (rows data)))
    (λ err, json 500 (Failure err)).

(** The get-by-id handler of daycares, classrooms, children and
    parents. *)
Definition get_by_id (t : table) (missing : string) (id : string) : M response :=
  try_catch
    (await result := pool_query (SelectById t (prepareValue (Str id)));
     if (length (rows result) =? 0)%nat
     then json 404 (NotFound missing)
     else json 200 (Data (rows result)))
    (λ err, json 500 (Failure err)).

Definition get_daycare : string → M response := get_by_id daycare "Daycare not found".
Definition get_classroom : string → M response :=
  get_by_id classroom "Classroom not found".
Definition get_child : string → M response := get_by_id child "Child not found".
Definition get_parent : string → M response := get_by_id parent "Parent not found".

(** [result["rows"]] on what a query without parameters returned: the
    rows of the one result, or [undefined] on an array of results. *)
Definition rows_property (results : list result) : option (list row) :=
  match results with
  | [r] => Some (rows r)
  | _ => None
  end.

(** [GET /get_enrollment/:id]. *)
Definition get_enrollment (id : string) : M response :=
  try_catch
    (await result := simple_query (select_enrollment_text id);
     match rows_property result with
     | None => throw TypeError
     | Some rows =>
         if (length rows =? 0)%nat
         then json 404 (NotFound "Enrollment not found")
         else json 200 (Data rows)
     end)
    (λ err, json 500 (Failure err)).

(** The delete handler of daycares, classrooms, children and parents. *)
Definition delete_by_id (t : table) (missing deleted : string) (id : string)
    : M response :=
  try_catch
    (await result := pool_query (DeleteById t (prepareValue (Str id)));
     if (rowCount result =? 0)%nat
     then json 404 (NotFound missing)
     else json 200 (Deleted deleted))
    (λ err, json 500 (Failure err)).

Definition delete_daycare : string → M response :=
  delete_by_id daycare "Daycare not found" "Daycare deleted successfully".
Definition delete_classroom : string → M response :=
  delete_by_id classroom "Classroom not found" "Classroom deleted successfully".
Definition delete_child : string → M response :=
  delete_by_id child "Child not found" "Child deleted successfully".
Definition delete_parent : string → M response :=
  delete_by_id parent "Parent not found" "Parent deleted successfully".

(** [DELETE /delete_enrollment/:id]: the result of the query is not
    looked at. *)
Definition delete_enrollment (id : string) : M response :=
  try_catch
    (await _result := simple_query (delete_enrollment_text id);
     json 200 (Deleted "Enrollment deleted successfully"))
    (λ err, json 500 (Failure err)).

(** The tail shared by the four parameterised update handlers. *)
Definition updated (missing done : string) (result : result) : M response :=
  if (rowCount result =? 0)%nat
  then json 404 (NotFound missing)
  else json 200 (Updated done (head (rows result))).

(** [PUT /update_daycare/:id]. *)
Definition update_daycare (id : string) (body : object) : M response :=
  let name := get body "name" in
  let address := get body "address" in
  let phone := get body "phone" in
  let email := get body "email" in
  if not name || not address || not phone || not email then
    json 400 (BadRequest "All fields (name, address, phone, email) are required")
  else
    try_catch
      (await result :=
         pool_query (UpdateDaycare (prepareValue name) (prepareValue address)
                       (prepareValue phone) (prepareValue email)
                       (prepareValue (Str id)));
       updated "Daycare not found" "Daycare updated successfully" result)
      (λ err, json 500 (Failure err)).

(** [PUT /update_classroom/:id]. *)
Definition update_classroom (id : string) (body : object) : M response :=
  let name := get body "name" in
  let daycare_id := get body "daycare_id" in
  if not name || not daycare_id then
    json 400 (BadRequest "Both name and daycare_id are required")
  else
    try_catch
      (await result :=
         pool_query (UpdateClassroom (prepareValue name) (prepareValue daycare_id)
                       (prepareValue (Str id)));
       updated "Classroom not found" "Classroom updated successfully" result)
      (λ err, json 500 (Failure err)).

(** [PUT /update_enrollment/:id]: no look at [rowCount]. *)
Definition update_enrollment (id : string) (body : object) : M response :=
  let child_id := get body "child_id" in
  let parent_id := get body "parent_id" in
  if not child_id || not parent_id then
    json 400 (BadRequest "Both child_id and parent_id are required")
  else
    try_catch
      (await result :=
         simple_query
           (update_enrollment_text (toString child_id) (toString parent_id) id);
       match rows_property result with
       | None => throw TypeError
       | Some rows =>
           json 200 (Updated "Enrollment updated successfully" (head rows))
       end)
      (λ err, json 500 (Failure err)).

(** [PUT /update_child/:id]. *)
Definition update_child (id : string) (body : object) : M response :=
  let name := get body "name" in
  let date_of_birth := get body "date_of_birth" in
  let classroom_id := get body "classroom_id" in
  let daycare_id := get body "daycare_id" in
  if not name || not date_of_birth || not classroom_id || not daycare_id then
    json 400 (BadRequest "All fields are required")
  else
    try_catch
      (await result :=
         pool_query (UpdateChild (prepareValue name) (prepareValue date_of_birth)
                       (prepareValue classroom_id) (prepareValue daycare_id)
                       (prepareValue (Str id)));
       updated "Child not found" "Child updated successfully" result)
      (λ err, json 500 (Failure err)).

(** [PUT /update_parent/:id]. *)
Definition update_parent (id : string) (body : object) : M response :=
  let name := get body "name" in
  let phone := get body "phone" in
  let email := get body "email" in
  if not name || not phone || not email then
    json 400 (BadRequest "All fields are required")
  else
    try_catch
      (await result :=
         pool_query (UpdateParent (prepareValue name) (prepareValue phone)
                       (prepareValue email) (prepareValue (Str id)));
       updated "Parent not found" "Parent updated successfully" result)
      (λ err, json 500 (Failure err)).

End Handlers.


(** ** The application: router and metrics middleware *)

(** The request methods of the model.  [HEAD] and [OPTIONS], which the
    framework answers on its own for a registered path, are left
    out. *)
Inductive method : Type := GET | PUT | DELETE | POST.

#[global] Instance method_eq_dec : EqDecision method.
Proof. solve_decision. Defined.

Definition method_name (m : method) : string :=
  match m with
  | GET => "GET" | PUT => "PUT" | DELETE => "DELETE" | POST => "POST"
  end.

(** A request after [express.json()]: method, path (without query
    string and without percent escapes) and parsed body. *)
Record request : Type :=
  Request { req_method : method; req_path : string; req_body : JS.object }.

Record app_state : Type := AppState { db : database; registry : observations }.

(** A handler at work on the application state; an exception that
    escapes a handler leaves the request without a response. *)
Abbreviation action := (app_state → option (app_state * response)).

Definition on_db (m : M response) : action :=
  λ st,
    match m (db st) with
    | Some (db', inr r) => Some (AppState db' (registry st), r)
    | _ => None
    end.

(** [GET /metrics] and [GET /api/metrics]. *)
Definition scrape : action :=
  λ st, Some (st, Response 200 (Metrics (exposition httpDuration (registry st)))).

Definition lower (c : ascii) : ascii :=
  let n := nat_of_ascii c in
  if (65 <=? n)%nat && (n <=? 90)%nat then ascii_of_nat (n + 32) else c.

Fixpoint lowercase (s : string) : string :=
  match s with
  | String c r => String (lower c) (lowercase r)
  | EmptyString => EmptyString
  end.

(** Route paths are matched the way the framework does by default:
    without regard to letter case, and with an optional trailing
    slash. *)
Definition matches_path (pattern path : string) : bool :=
  let p := lowercase path in
  String.eqb p (lowercase pattern) || String.eqb p (lowercase pattern ++ "/").

Definition segment (s : string) : bool :=
  negb (String.eqb s "")
  && match String.index 0 "/" s with None => true | Some _ => false end.

(** A path under [prefix:id]: the value of [req.params.id]. *)
Definition matches_id (prefix path : string) : option string :=
  let n := String.length prefix in
  if String.eqb (lowercase (substring 0 n path)) (lowercase prefix) then
    let rest := substring n (String.length path - n) path in
    if segment rest then Some rest
    else
      let m := (String.length rest - 1)%nat in
      if String.eqb (substring m 1 rest) "/" && segment (substring 0 m rest)
      then Some (substring 0 m rest)
      else None
  else None.

Inductive target : Type :=
| Fixed (path : string) (h : action)
| WithId (prefix : string) (h : string → JS.object → action).

Definition route_path (t : target) : string :=
  match t with
  | Fixed path _ => path
  | WithId prefix _ => prefix ++ ":id"
  end.

(** [setupMetrics(app)] installs the middleware (see [serve]) and
    registers the two scrape routes. *)
Definition setupMetrics : list (method * target) :=
  [ (GET, Fixed "/metrics" scrape);
    (GET, Fixed "/api/metrics" scrape) ].

(** The routes in the order they are registered. *)
Definition routes : list (method * target) :=
  (setupMetrics ++
  [ (GET, Fixed "/health" (on_db health));
    (GET, Fixed "/get_daycares" (on_db get_daycares));
    (GET, WithId "/get_daycare/" (λ id _, on_db (get_daycare id)));
    (DELETE, WithId "/delete_daycare/" (λ id _, on_db (delete_daycare id)));
    (PUT, WithId "/update_daycare/" (λ id b, on_db (update_daycare id b)));
    (GET, Fixed "/get_classrooms" (on_db get_classrooms));
    (GET, WithId "/get_classroom/" (λ id _, on_db (get_classroom id)));
    (DELETE, WithId "/delete_classroom/" (λ id _, on_db (delete_classroom id)));
    (PUT, WithId "/update_classroom/" (λ id b, on_db (update_classroom id b)));
    (GET, Fixed "/get_enrollments" (on_db get_enrollments));
    (GET, WithId "/get_enrollment/" (λ id _, on_db (get_enrollment id)));
    (DELETE, WithId "/delete_enrollment/" (λ id _, on_db (delete_enrollment id)));
    (PUT, WithId "/update_enrollment/" (λ id b, on_db (update_enrollment id b)));
    (GET, Fixed "/get_children" (on_db get_children));
    (GET, WithId "/get_child/" (λ id _, on_db (get_child id)));
    (DELETE, WithId "/delete_child/" (λ id _, on_db (delete_child id)));
    (PUT, WithId "/update_child/" (λ id b, on_db (update_child id b)));
    (GET, Fixed "/get_parents" (on_db get_parents));
    (GET, WithId "/get_parent/" (λ id _, on_db (get_parent id)));
    (DELETE, WithId "/delete_parent/" (λ id _, on_db (delete_parent id)));
    (PUT, WithId "/update_parent/" (λ id b, on_db (update_parent id b))) ])%list.

(** The documentation UI is mounted on [/api], after the two scrape
    routes and the health route; what it answers is not modelled. *)
Definition under_api (path : string) : bool :=
  let p := lowercase path in
  String.eqb p "/api" || String.eqb (substring 0 5 p) "/api/".

(** The first route that takes the request, as [req.route.path], with
    the action it runs. *)
Fixpoint find_route (rs : list (method * target)) (req : request)
    : option (string * action) :=
  match rs with
  | [] => None
  | (m, t) :: rs =>
      if decide (m = req_method req) then
        match t with
        | Fixed path h =>
            if matches_path path (req_path req) then Some (path, h)
            else find_route rs req
        | WithId prefix h =>
            match matches_id prefix (req_path req) with
            | Some id => Some (route_path t, h id (req_body req))
            | None => find_route rs req
            end
        end
      else find_route rs req
  end.

(** What [next()] leads to: the response and [req.route], if any. *)
Definition dispatch (req : request) : app_state → option (app_state * (response * option string)) :=
  λ st,
    match find_route routes req with
    | Some (path, h) => '(st', r) ← h st; Some (st', (r, Some path))
    | None =>
        if under_api (req_path req) then None
        else Some (st, (Response 404 CannotRoute, None))
    end.

(** [a || b] on strings: the first operand unless it is empty. *)
Definition or_else (a b : string) : string := if String.eqb a "" then b else a.

(** The middleware.  [elapsed] is the time in nanoseconds between its
    call and the [finish] event of the response. *)
Definition metricsMiddleware (skipPaths : list string) (req : request) (elapsed : N)
    (next : app_state → option (app_state * (response * option string)))
    : action :=
  λ st,
    if decide (req_path req ∈ skipPaths) then
      '(st', (res, _)) ← next st; Some (st', res)
    else
      '(st', (res, route)) ← next st;
      let dur := (Z.of_N elapsed # 1000000000)%Q in
      let route := or_else (default "" route) (or_else (req_path req) "unknown") in
      Some (AppState (db st')
              (observe (Labels (method_name (req_method req)) route (status res))
                 dur (registry st')),
            res).

(** The default value of the [skipPaths] parameter. *)
Definition skipPaths : list string := ["/metrics"; "/api/metrics"].

(** One request served by the application. *)
Definition serve (req : request) (elapsed : N) : action :=
  metricsMiddleware skipPaths req elapsed (dispatch req).


(** ** The five entity families, by table *)

(** The fields an update handler insists on. *)
Definition required (t : table) : list string :=
  match t with
  | daycare => ["name"; "address"; "phone"; "email"]
  | classroom => ["name"; "daycare_id"]
  | enrollment => ["child_id"; "parent_id"]
  | child => ["name"; "date_of_birth"; "classroom_id"; "daycare_id"]
  | parent => ["name"; "phone"; "email"]
  end.

Definition list_all (t : table) : M response :=
  match t with
  | daycare => get_daycares
  | classroom => get_classrooms
  | enrollment => get_enrollments
  | child => get_children
  | parent => get_parents
  end.

Definition get_one (t : table) : string → M response :=
  match t with
  | daycare => get_daycare
  | classroom => get_classroom
  | enrollment => get_enrollment
  | child => get_child
  | parent => get_parent
  end.

Definition delete_one (t : table) : string → M response :=
  match t with
  | daycare => delete_daycare
  | classroom => delete_classroom
  | enrollment => delete_enrollment
  | child => delete_child
  | parent => delete_parent
  end.

Definition update_one (t : table) : string → JS.object → M response :=
  match t with
  | daycare => update_daycare
  | classroom => update_classroom
  | enrollment => update_enrollment
  | child => update_child
  | parent => update_parent
  end.

(** The [id] column of a table. *)
Definition ids (t : table) (db : database) : list Z := row_id <$> rows_of t db.

(** [reads_as t id n]: the path parameter [id] is the integer [n] for
    the statements of table [t] -- as a bound parameter of an INT
    column, or, for enrollments, as the integer spliced into the
    text. *)
Definition reads_as (t : table) (id : string) (n : Z) : Prop :=
  match t with
  | enrollment => Text.unsigned_decimal id = Some n
  | _ => Pg.int4in id = Accepted n
  end.

Definition all_truthy (t : table) (body : JS.object) : bool :=
  forallb (λ k, JS.truthy (JS.get body k)) (required t).

(** The message of a successful update. *)
Definition updated_message (t : table) : string :=
  match t with
  | daycare => "Daycare updated successfully"
  | classroom => "Classroom updated successfully"
  | enrollment => "Enrollment updated successfully"
  | child => "Child updated successfully"
  | parent => "Parent updated successfully"
  end.

Definition accepted {A : Type} (p : parsed A) : option A :=
  match p with
  | Accepted a => Some a
  | _ => None
  end.

(** What an integer column takes from a literal. *)
Definition literal_value (l : literal) : option (option Z) :=
  match l with
  | IntLit n => if Pg.in_int4 n then Some (Some n) else None
  | NullLit => Some None
  | BoolLit _ => None
  end.

(** [new_row t n body]: the row with id [n] that holds the fields of
    [body] as the columns of [t] read them; [None] when a column does
    not take its field. *)
Definition new_row (t : table) (n : Z) (body : JS.object) : option row :=
  let text k := JS.toString (JS.get body k) in
  match t with
  | daycare =>
      name ← accepted (Pg.varchar 150 (text "name"));
      address ← accepted (Pg.varchar 255 (text "address"));
      phone ← accepted (Pg.varchar 20 (text "phone"));
      email ← accepted (Pg.varchar 150 (text "email"));
      Some (OfDaycare (Daycare.Row n name (Some address) (Some phone) (Some email)))
  | classroom =>
      name ← accepted (Pg.varchar 100 (text "name"));
      daycare_id ← accepted (Pg.int4in (text "daycare_id"));
      Some (OfClassroom (Classroom.Row n name (Some daycare_id)))
  | enrollment =>
      child_id ← read_literal (text "child_id") ≫= literal_value;
      parent_id ← read_literal (text "parent_id") ≫= literal_value;
      Some (OfEnrollment (Enrollment.Row n child_id parent_id))
  | child =>
      name ← accepted (Pg.varchar 100 (text "name"));
      date_of_birth ← accepted (Pg.date_in (text "date_of_birth"));
      classroom_id ← accepted (Pg.int4in (text "classroom_id"));
      daycare_id ← accepted (Pg.int4in (text "daycare_id"));
      Some (OfChild (Child.Row n name date_of_birth (Some classroom_id)
                       (Some daycare_id)))
  | parent =>
      name ← accepted (Pg.varchar 100 (text "name"));
      phone ← accepted (Pg.varchar 20 (text "phone"));
      email ← accepted (Pg.varchar 150 (text "email"));
      Some (OfParent (Parent.Row n name (Some phone) (Some email)))
  end.

Definition points_into (fk : option Z) (l : list Z) : bool :=
  match fk with
  | Some k => bool_decide (k ∈ l)
  | None => true
  end.

(** The foreign keys of a row point at stored rows. *)
Definition foreign_keys_hold (r : row) (db : database) : bool :=
  match r with
  | OfClassroom r => points_into (Classroom.daycare_id r) (ids daycare db)
  | OfChild r =>
      points_into (Child.classroom_id r) (ids classroom db)
      && points_into (Child.daycare_id r) (ids daycare db)
  | OfEnrollment r =>
      points_into (Enrollment.child_id r) (ids child db)
      && points_into (Enrollment.parent_id r) (ids parent db)
  | _ => true
  end.

Definition count_key (t : table) : string :=
  match t with
  | daycare => "daycares_count"
  | classroom => "classrooms_count"
  | enrollment => "enrollments_count"
  | child => "children_count"
  | parent => "parents_count"
  end.

(** [store t n r db]: the rows of [t] with id [n] replaced by [r]. *)
Definition store (t : table) (n : Z) (r : row) (db : database) : database :=
  match t, r with
  | daycare, OfDaycare d =>
      set_daycares (rewrite_rows Daycare.id (Some n) (λ _, d) (daycares db)) db
  | classroom, OfClassroom d =>
      set_classrooms (rewrite_rows Classroom.id (Some n) (λ _, d) (classrooms db)) db
  | parent, OfParent d =>
      set_parents (rewrite_rows Parent.id (Some n) (λ _, d) (parents db)) db
  | child, OfChild d =>
      set_children (rewrite_rows Child.id (Some n) (λ _, d) (children db)) db
  | enrollment, OfEnrollment d =>
      set_enrollments (rewrite_rows Enrollment.id (Some n) (λ _, d) (enrollments db)) db
  | _, _ => db
  end.

Definition missing_message (t : table) : string :=
  match t with
  | daycare => "Daycare not found"
  | classroom => "Classroom not found"
  | enrollment => "Enrollment not found"
  | child => "Child not found"
  | parent => "Parent not found"
  end.

(** [in_table t r]: [r] is a row of table [t]. *)
Definition in_table (t : table) (r : row) : Prop :=
  match t, r with
  | daycare, OfDaycare _ | classroom, OfClassroom _ | parent, OfParent _
  | child, OfChild _ | enrollment, OfEnrollment _ => True
  | _, _ => False
  end.

(** [keeps_registry t]: the handler of a route leaves the recorded
    observations alone. *)
Definition keeps_registry (t : target) : Prop :=
  match t with
  | Fixed _ h => ∀ st st' r, h st = Some (st', r) → registry st' = registry st
  | WithId _ h =>
      ∀ id body st st' r, h id body st = Some (st', r) → registry st' = registry st
  end.

(** [reads_only req mt]: if the route [mt] is a GET route, its handler,
    run on [req], leaves the database as it was. *)
Definition reads_only (req : request) (mt : method * target) : Prop :=
  fst mt = GET →
  match snd mt with
  | Fixed _ h => ∀ st st' r, h st = Some (st', r) → db st' = db st
  | WithId prefix h =>
      ∀ id, matches_id prefix (req_path req) = Some id →
      ∀ st st' r, h id (req_body req) st = Some (st', r) → db st' = db st
  end.

(** ** Keys, messages and paths, by table *)

Definition tables : list table := [daycare; classroom; parent; child; enrollment].

(** [consistent db]: what the keys of the schema promise of a state.
    In every table the [id] is unique ([SERIAL PRIMARY KEY]), and
    every foreign key that is not NULL points at a stored row
    ([REFERENCES]). *)
Definition consistent (db : database) : Prop :=
  Forall (λ t, NoDup (ids t db)
               ∧ Forall (λ r, foreign_keys_hold r db = true) (rows_of t db))
    tables.

#[global] Instance consistent_dec (db : database) : Decision (consistent db).
Proof. unfold consistent. apply _. Defined.

(** The message of a successful delete. *)
Definition deleted_message (t : table) : string :=
  match t with
  | daycare => "Daycare deleted successfully"
  | classroom => "Classroom deleted successfully"
  | enrollment => "Enrollment deleted successfully"
  | child => "Child deleted successfully"
  | parent => "Parent deleted successfully"
  end.

(** The name of a table in the route paths. *)
Definition entity (t : table) : string :=
  match t with
  | daycare => "daycare"
  | classroom => "classroom"
  | enrollment => "enrollment"
  | child => "child"
  | parent => "parent"
  end.


(** [writes_row t db rep]: what an [UPDATE t ... WHERE id = ...
    RETURNING *] can come to on [db].  It fails and leaves the state;
    or it matches no row, leaves the state and returns nothing; or it
    stores one row [r] of [t], whose foreign keys point at stored
    rows, under the id of a stored row, and returns [r] first. *)
Definition writes_row (t : table) (db : database) (rep : reply) : Prop :=
  match rep with
  | None => True
  | Some (db', inl _) => db' = db
  | Some (db', inr res) =>
      (db' = db ∧ rows res = [] ∧ rowCount res = 0%nat)
      ∨ ∃ r, in_table t r ∧ row_id r ∈ ids t db ∧ foreign_keys_hold r db = true
             ∧ db' = store t (row_id r) r db
             ∧ head (rows res) = Some r ∧ rowCount res ≠ 0%nat
  end.



(** The label [route] of a request: the path of the route that takes
    it, the request path when no route does. *)
Definition route_of (req : request) : string :=
  match find_route routes req with
  | Some (path, _) => path
  | None => or_else (req_path req) "unknown"
  end.


(** ** Start-up: the port *)

(** [a || b] on values. *)
Definition or_value (a b : JS.value) : JS.value := if JS.truthy a then a else b.

(** [process.env.PORT]: a string when the variable is set,
    [undefined] when it is not. *)
Definition env_PORT (env : option string) : JS.value :=
  match env with
  | Some s => JS.Str s
  | None => JS.Undefined
  end.

(** [const PORT = process.env.PORT || 3000]. *)
Definition PORT (env : option string) : JS.value := or_value (env_PORT env) (JS.Num 3000).

(** [servers[0].url] of [swaggerOptions]: the address the
    documentation sends its requests to. *)
Definition server_url (env : option string) : string :=
  "http://localhost:" ++ JS.toString (PORT env).

(** The port of [app.listen(3000, ...)]. *)
Definition listen_port : Z := 3000.

(** What [app.listen]'s callback logs. *)
Definition startup_message (env : option string) : string :=
  "Server running on http://localhost:" ++ JS.toString (PORT env) ++ "/api".

(** * Properties *)

(** A closed decidable proposition, by evaluation. *)
Ltac decide_closed := apply (bool_decide_unpack _); vm_compute; exact I.

(** ** Decimal text *)

Lemma span_digits_string_of_uint (d : Decimal.uint) :
  Text.span_digits (NilEmpty.string_of_uint d) = (NilEmpty.string_of_uint d, "").
Proof.
  induction d; simpl; try rewrite IHd; reflexivity.
Qed.

Lemma unsigned_decimal_to_uint (p : positive) :
  Text.unsigned_decimal (NilEmpty.string_of_uint (Pos.to_uint p)) = Some (Z.pos p).
Proof.
  pose proof (DecimalPos.Unsigned.to_uint_nonnil p) as Hnil.
  unfold Text.unsigned_decimal.
  rewrite NilEmpty.usu.
  destruct (Pos.to_uint p) eqn:E; try done; simpl;
    rewrite <- E; unfold Z.of_uint; rewrite DecimalPos.Unsigned.of_to; reflexivity.
Qed.

Lemma parseInt_leading_digit (c : ascii) (r : string) :
  Text.is_digit c = true →
  JS.parseInt (String c r)
  = match Text.unsigned_decimal (fst (Text.span_digits (String c r))) with
    | Some n => JS.Num (1 * n)
    | None => JS.NaN
    end.
Proof.
  destruct c as [[] [] [] [] [] [] [] []]; intros H; try discriminate H; reflexivity.
Qed.

Lemma string_of_uint_leading_digit (d : Decimal.uint) :
  d ≠ Decimal.Nil →
  ∃ c r, NilEmpty.string_of_uint d = String c r ∧ Text.is_digit c = true.
Proof.
  destruct d; intros H; try done; simpl; eauto.
Qed.

(** [parseInt] reads back the decimal text of a row count. *)
Lemma parseInt_count_text (l : list row) :
  JS.parseInt (count_text l) = JS.Num (Z.of_nat (length l)).
Proof.
  unfold count_text.
  destruct (Z.of_nat (length l)) as [|p|p] eqn:E; [reflexivity| |lia].
  simpl. pose proof (DecimalPos.Unsigned.to_uint_nonnil p) as Hnil.
  assert (NilZero.string_of_uint (Pos.to_uint p)
          = NilEmpty.string_of_uint (Pos.to_uint p)) as ->
    by (destruct (Pos.to_uint p); done).
  destruct (string_of_uint_leading_digit _ Hnil) as (c & r & Hs & Hc).
  pose proof (unsigned_decimal_to_uint p) as Hdec.
  pose proof (span_digits_string_of_uint (Pos.to_uint p)) as Hspan.
  rewrite Hs in *. rewrite (parseInt_leading_digit c r Hc), Hspan. simpl fst.
  by rewrite Hdec.
Qed.

(** ** Statement text *)

Lemma strip_prefix_app (p s : string) : strip_prefix p (p ++ s) = Some s.
Proof. induction p as [|a p IH]; simpl; [done|]. by rewrite Ascii.eqb_refl. Qed.

Lemma prefix_app (p s : string) : String.prefix p (p ++ s) = true.
Proof.
  induction p as [|a p IH]; simpl; [by destruct s|].
  destruct (ascii_dec a a); [done|congruence].
Qed.

Lemma index_app (a : ascii) (sep c rest : string) :
  avoids a c = true →
  String.index 0 (String a sep) (c ++ String a sep ++ rest) = Some (String.length c).
Proof.
  intros H. induction c as [|x c IH].
  - simpl append. pose proof (prefix_app (String a sep) rest) as Hp.
    simpl append in Hp. simpl String.index. simpl in Hp. by rewrite Hp.
  - simpl in H. apply andb_true_iff in H as [Hx Hc].
    apply negb_true_iff, Ascii.eqb_neq in Hx.
    simpl append. simpl String.index.
    change (index 0 (String a sep) (c ++ String a (sep ++ rest)))
      with (index 0 (String a sep) (c ++ String a sep ++ rest)).
    rewrite (IH Hc).
    simpl. destruct (ascii_dec a x); [congruence|done].
Qed.

Lemma substring_app_l (c r : string) : substring 0 (String.length c) (c ++ r) = c.
Proof. induction c as [|x c IH]; simpl; [by destruct r|]. by rewrite IH. Qed.

Lemma substring_all (s : string) : substring 0 (String.length s) s = s.
Proof. induction s as [|x s IH]; simpl; [done|]. by rewrite IH. Qed.

Lemma substring_app_r (c r : string) :
  substring (String.length c) (String.length r) (c ++ r) = r.
Proof. induction c as [|x c IH]; simpl; [apply substring_all|]. apply IH. Qed.

Lemma append_cons (x : ascii) (a b : string) : String x a ++ b = String x (a ++ b).
Proof. reflexivity. Qed.

Lemma length_app (a b : string) :
  String.length (a ++ b) = (String.length a + String.length b)%nat.
Proof. induction a as [|x a IH]; [done|]. rewrite append_cons. simpl. by rewrite IH. Qed.

Lemma append_assoc (a b c : string) : (a ++ b) ++ c = a ++ b ++ c.
Proof. induction a as [|x a IH]; [done|]. rewrite !append_cons. by rewrite IH. Qed.

Lemma split_first_app (a : ascii) (sep c rest : string) :
  avoids a c = true →
  split_first (String a sep) (c ++ String a sep ++ rest) = Some (c, rest).
Proof.
  intros H. unfold split_first. rewrite (index_app a sep c rest H).
  rewrite substring_app_l. f_equal. f_equal.
  rewrite <- (append_assoc c (String a sep) rest).
  replace (String.length c + String.length (String a sep))%nat
    with (String.length (c ++ String a sep)) by apply length_app.
  rewrite (length_app (c ++ String a sep) rest).
  replace (String.length (c ++ String a sep) + String.length rest
           - String.length (c ++ String a sep))%nat with (String.length rest) by lia.
  apply substring_app_r.
Qed.

Lemma uint_of_string_digits (s : string) (d : Decimal.uint) :
  NilEmpty.uint_of_string s = Some d → all_digits s = true.
Proof.
  revert d. induction s as [|c s IH]; intros d; [done|].
  simpl. destruct (NilEmpty.uint_of_string s) as [d'|] eqn:E.
  - rewrite (IH d' eq_refl), andb_true_r.
    destruct c as [[] [] [] [] [] [] [] []]; simpl; intros H; try discriminate H; reflexivity.
  - destruct c as [[] [] [] [] [] [] [] []]; simpl; intros H; discriminate H.
Qed.

Lemma unsigned_decimal_digits (s : string) (n : Z) :
  unsigned_decimal s = Some n → all_digits s = true ∧ s ≠ "".
Proof.
  destruct s as [|c s]; [done|]. unfold unsigned_decimal.
  destruct (NilEmpty.uint_of_string (String c s)) eqn:E; [|done].
  intros _. split; [by eapply uint_of_string_digits | done].
Qed.

Lemma span_digits_app (s rest : string) :
  all_digits s = true →
  match rest with String c _ => is_digit c = false | EmptyString => True end →
  span_digits (s ++ rest) = (s, rest).
Proof.
  intros Hs Hr. induction s as [|c s IH]; simpl.
  - destruct rest as [|c r]; [done|]. simpl. by rewrite Hr.
  - simpl in Hs. apply andb_true_iff in Hs as [Hc Hs]. by rewrite Hc, (IH Hs).
Qed.

Lemma all_digits_avoids (a : ascii) (s : string) :
  is_digit a = false → all_digits s = true → avoids a s = true.
Proof.
  intros Ha. induction s as [|c s IH]; [done|]. simpl.
  intros [Hc Hs]%andb_true_iff. rewrite (IH Hs), andb_true_r.
  apply negb_true_iff, Ascii.eqb_neq. intros ->. congruence.
Qed.

Lemma read_literal_avoids (a : ascii) (s : string) (l : literal) :
  is_digit a = false → a ≠ "-"%char → Ascii.is_space a = true ∨ a = ","%char →
  read_literal s = Some l → avoids a s = true.
Proof.
  intros Hd Hm Ha. unfold read_literal.
  destruct (Pg.signed_decimal s) as [n|] eqn:E.
  - intros _. unfold Pg.signed_decimal in E.
    assert (∀ s' m, unsigned_decimal s' = Some m → avoids a s' = true) as Hu.
    { intros s' m [H _]%unsigned_decimal_digits. by apply all_digits_avoids. }
    destruct s as [|c s]; [done|].
    destruct (decide (c = "-"%char)) as [->|Hc].
    + destruct (unsigned_decimal s) as [m|] eqn:Es; [|done].
      cbn [avoids]. rewrite (Hu s m Es), andb_true_r.
      apply negb_true_iff, Ascii.eqb_neq. congruence.
    + assert (unsigned_decimal (String c s) = Some n) as Es.
      { revert E. clear -Hc. destruct c as [[] [] [] [] [] [] [] []]; try done. }
      by eapply Hu.
  - destruct (String.eqb_spec s "true") as [->|_].
    { intros _. destruct Ha as [Ha| ->]; [|reflexivity].
      revert Ha. clear. destruct a as [[] [] [] [] [] [] [] []]; done. }
    destruct (String.eqb_spec s "false") as [->|_].
    { intros _. destruct Ha as [Ha| ->]; [|reflexivity].
      revert Ha. clear. destruct a as [[] [] [] [] [] [] [] []]; done. }
    destruct (String.eqb_spec s "null") as [->|_]; [|done].
    intros _. destruct Ha as [Ha| ->]; [|reflexivity].
    revert Ha. clear. destruct a as [[] [] [] [] [] [] [] []]; done.
Qed.

Lemma parse_select_text (id : string) (n : Z) :
  unsigned_decimal id = Some n →
  parse_simple (select_enrollment_text id) = Some (SelectEnrollment n None).
Proof.
  intros H. destruct (unsigned_decimal_digits id n H) as [Hd _].
  unfold parse_simple, select_enrollment_text.
  rewrite strip_prefix_app. unfold read_condition.
  rewrite (span_digits_app id " ORDER BY id ASC" Hd) by reflexivity.
  rewrite H. reflexivity.
Qed.

Lemma parse_delete_text (id : string) (n : Z) :
  unsigned_decimal id = Some n →
  parse_simple (delete_enrollment_text id) = Some (DeleteEnrollment n None).
Proof.
  intros H. destruct (unsigned_decimal_digits id n H) as [Hd _].
  unfold parse_simple, delete_enrollment_text.
  assert (strip_prefix "SELECT * FROM public.enrollment WHERE public.enrollment.id="
            ("DELETE FROM public.enrollment WHERE public.enrollment.id=" ++ id) = None)
    as -> by reflexivity.
  rewrite strip_prefix_app. unfold read_condition.
  replace id with (id ++ "") at 1 by (clear; induction id as [|c s IH]; [done|]; by rewrite append_cons, IH).
  rewrite (span_digits_app id "" Hd) by done.
  rewrite H. reflexivity.
Qed.

Lemma parse_update_text (c p i : string) (lc lp li : literal) :
  read_literal c = Some lc → read_literal p = Some lp → read_literal i = Some li →
  parse_simple (update_enrollment_text c p i) = Some (UpdateEnrollment lc lp li).
Proof.
  intros Hc Hp Hi.
  pose proof (read_literal_avoids ","%char c lc eq_refl ltac:(done) (or_intror eq_refl) Hc) as Ac.
  pose proof (read_literal_avoids (ascii_of_nat 10) p lp eq_refl ltac:(done)
                (or_introl eq_refl) Hp) as Ap.
  pose proof (read_literal_avoids (ascii_of_nat 10) i li eq_refl ltac:(done)
                (or_introl eq_refl) Hi) as Ai.
  unfold parse_simple, update_enrollment_text.
  set (tail := c ++ _).
  assert (strip_prefix "SELECT * FROM public.enrollment WHERE public.enrollment.id="
            ("UPDATE public.enrollment" ++ newline ++ "       SET child_id = " ++ tail) = None)
    as -> by reflexivity.
  assert (strip_prefix "DELETE FROM public.enrollment WHERE public.enrollment.id="
            ("UPDATE public.enrollment" ++ newline ++ "       SET child_id = " ++ tail) = None)
    as -> by reflexivity.
  assert (strip_prefix
            ("UPDATE public.enrollment" ++ newline ++ "       SET child_id = ")
            ("UPDATE public.enrollment" ++ newline ++ "       SET child_id = " ++ tail)
          = Some tail) as ->.
  { exact (strip_prefix_app _ tail). } subst tail. simpl mbind.
  assert (split_first ", parent_id = "
            (c ++ ", parent_id = " ++ p ++ newline ++ "       WHERE id = " ++ i
               ++ newline ++ "       RETURNING *")
          = Some (c, p ++ newline ++ "       WHERE id = " ++ i ++ newline
                     ++ "       RETURNING *")) as ->
    by exact (split_first_app ","%char " parent_id = " c _ Ac).
  simpl mbind.
  assert (split_first (newline ++ "       WHERE id = ")
            (p ++ newline ++ "       WHERE id = " ++ i ++ newline ++ "       RETURNING *")
          = Some (p, i ++ newline ++ "       RETURNING *")) as ->
    by exact (split_first_app (ascii_of_nat 10) "       WHERE id = " p _ Ap).
  simpl mbind.
  assert (split_first (newline ++ "       RETURNING *")
            (i ++ newline ++ "       RETURNING *") = Some (i, "")) as ->
    by exact (split_first_app (ascii_of_nat 10) "       RETURNING *" i "" Ai).
  simpl mbind.
  rewrite Hc, Hp, Hi. reflexivity.
Qed.

(** ** List routes *)

#[global] Instance id_le_total : Total id_le.
Proof. intros a b. unfold id_le. lia. Qed.

#[global] Instance id_le_trans : Transitive id_le.
Proof. intros a b c. unfold id_le. lia. Qed.

Lemma ordered_by_id_length (l : list row) : length (ordered_by_id l) = length l.
Proof. unfold ordered_by_id. by rewrite merge_sort_Permutation. Qed.

Lemma rows_of_length (t : table) (db : database) :
  length (rows_of t db)
  = match t with
    | daycare => length (daycares db)
    | classroom => length (classrooms db)
    | parent => length (parents db)
    | child => length (children db)
    | enrollment => length (enrollments db)
    end.
Proof. destruct t; simpl; apply length_fmap. Qed.

(** What a list route answers, for each of the five tables. *)
Lemma list_all_listing (t : table) (db : database) :
  list_all t db
  = Some (db, inr (Response 200
                     (Listing (count_key t)
                        (if decide (t = enrollment)
                         then JS.Str (count_text (rows_of t db))
                         else JS.parseInt (count_text (rows_of t db)))
                        (ordered_by_id (rows_of t db))))).
Proof. destruct t; reflexivity. Qed.

(** X17: the four list routes that pass the count through [parseInt]
    report the number of rows, as a number, and it is the length of
    [data]. *)
Lemma list_count_is_length (t : table) (db : database) :
  t ≠ enrollment →
  ∃ data,
    list_all t db
    = Some (db, inr (Response 200
                       (Listing (count_key t) (JS.Num (Z.of_nat (length data))) data)))
    ∧ length data = length (rows_of t db).
Proof.
  intros Ht. exists (ordered_by_id (rows_of t db)).
  rewrite list_all_listing, ordered_by_id_length.
  destruct (decide (t = enrollment)); [done|].
  by rewrite parseInt_count_text.
Qed.

(** C2 (the enrollment list route): on the seeded database the body of
    [GET /get_enrollments] carries [enrollments_count] as the string
    "5", not as the integer 5 its siblings and its own documentation
    promise; for every database the count is a string. *)
Theorem get_enrollments_count_is_text :
  (∃ data,
     get_enrollments seed
     = Some (seed, inr (Response 200 (Listing "enrollments_count" (JS.Str "5") data)))
     ∧ length data = 5%nat)
  ∧ ∀ db : database,
      ∃ text data,
        list_all enrollment db
        = Some (db, inr (Response 200 (Listing "enrollments_count" (JS.Str text) data)))
        ∧ JS.parseInt text = JS.Num (Z.of_nat (length data))
        ∧ length data = length (enrollments db).
Proof.
  split.
  - eexists. split; reflexivity.
  - intros db. exists (count_text (rows_of enrollment db)), (ordered_by_id (rows_of enrollment db)).
    split; [reflexivity|]. rewrite parseInt_count_text, ordered_by_id_length.
    split; [done|]. apply (rows_of_length enrollment).
Qed.

(** C8: for every table and every database the list route answers 200
    with all the rows of the table -- a permutation of the stored rows,
    nothing cut off -- in ascending order of [id]. *)
Theorem list_returns_all_rows_in_id_order (t : table) (db : database) :
  ∃ count data,
    list_all t db = Some (db, inr (Response 200 (Listing (count_key t) count data)))
    ∧ data ≡ₚ rows_of t db
    ∧ StronglySorted id_le data.
Proof.
  eexists _, (ordered_by_id (rows_of t db)). split; [apply list_all_listing|]. split.
  - apply merge_sort_Permutation.
  - apply StronglySorted_merge_sort; apply _.
Qed.

(** ** Update routes: the presence check *)

(** C3: when a required field of the body is absent or falsy (zero and
    the empty string included), the update route of every table answers
    400 and the database is left as it was. *)
Theorem update_rejects_falsy_fields
    (t : table) (id : string) (body : JS.object) (db : database) :
  (∃ k, k ∈ required t ∧ JS.truthy (JS.get body k) = false) →
  ∃ message,
    update_one t id body db = Some (db, inr (Response 400 (BadRequest message))).
Proof.
  intros (k & Hk & Hf).
  assert (all_truthy t body = false) as H.
  { unfold all_truthy. apply not_true_is_false. intros Hall.
    rewrite forallb_forall in Hall. rewrite (Hall k) in Hf; [done|].
    by apply list_elem_of_In. }
  clear k Hk Hf. unfold all_truthy in H.
  destruct t; simpl in H;
    unfold update_one, update_daycare, update_classroom, update_enrollment,
      update_child, update_parent, JS.not;
    repeat match type of H with
           | context [JS.truthy ?v] => destruct (JS.truthy v)
           end; simpl in *; try discriminate; eexists; reflexivity.
Qed.

Lemma update_rejects_falsy_fields_witness :
  (∃ k, k ∈ required classroom
        ∧ JS.truthy (JS.get {[ "name" := JS.Str "Blue"; "daycare_id" := JS.Num 0 ]} k)
          = false)
  ∧ ∃ message,
      update_one classroom "1" {[ "name" := JS.Str "Blue"; "daycare_id" := JS.Num 0 ]} seed
      = Some (seed, inr (Response 400 (BadRequest message))).
Proof.
  assert (∃ k, k ∈ required classroom
        ∧ JS.truthy (JS.get {[ "name" := JS.Str "Blue"; "daycare_id" := JS.Num 0 ]} k)
          = false) as H.
  { exists "daycare_id". split; [decide_closed | reflexivity]. }
  split; [exact H|].
  exact (update_rejects_falsy_fields classroom "1" _ seed H).
Defined.

(** ** Deletes and the foreign keys *)

(** What the four parameterised delete handlers answer on an id the
    server reads as [n]. *)
Lemma delete_by_id_accepted (t : table) (missing deleted id : string) (n : Z)
    (db : database) :
  Pg.int4in id = Accepted n →
  delete_by_id t missing deleted id db
  = Some (fst (delete_where t (λ k, Some k = Some n) db),
          inr (if (snd (delete_where t (λ k, Some k = Some n) db) =? 0)%nat
               then Response 404 (NotFound missing)
               else Response 200 (Deleted deleted))).
Proof.
  intros H. unfold delete_by_id, try_catch, bind, pool_query, bound, prepareValue.
  simpl JS.toString. rewrite H.
  destruct (delete_where t _ db) as [db' count]. simpl.
  destruct (count =? 0)%nat; reflexivity.
Qed.

Lemma hit_nonempty {A} (f : A → Z) (n : Z) (l : list A) :
  n ∈ f <$> l → length (hit (λ r, Some (f r) = Some n) l) ≠ 0%nat.
Proof.
  intros (r & -> & Hr)%list_elem_of_fmap.
  assert (r ∈ hit (λ r', Some (f r') = Some (f r)) l) as Hin
    by (apply list_elem_of_filter; done).
  destruct (hit _ l); [inversion Hin | done].
Qed.

Lemma delete_where_count (t : table) (n : Z) (db : database) :
  n ∈ ids t db → snd (delete_where t (λ k, Some k = Some n) db) ≠ 0%nat.
Proof.
  unfold ids. destruct t; simpl; rewrite <- list_fmap_compose; apply hit_nonempty.
Qed.

Lemma hit_ids {A} (f : A → Z) (n : Z) (l : list A) :
  n ∈ f <$> l → n ∈ f <$> hit (λ r, Some (f r) = Some n) l.
Proof.
  intros (r & -> & Hr)%list_elem_of_fmap.
  apply list_elem_of_fmap. exists r. split; [done|]. by apply list_elem_of_filter.
Qed.

(** C5: deleting a stored daycare answers 200 and leaves no classroom
    and no child whose [daycare_id] is the deleted id; deleting a
    stored classroom answers 200, deletes no child, and every child
    that pointed at the classroom is still stored, with [classroom_id]
    null and its other columns as before. *)
Theorem delete_follows_foreign_keys
    (db : database) (daycare_id classroom_id : string) (d c : Z) :
  Pg.int4in daycare_id = Accepted d → d ∈ ids daycare db →
  Pg.int4in classroom_id = Accepted c → c ∈ ids classroom db →
  (∃ db',
     delete_daycare daycare_id db
     = Some (db', inr (Response 200 (Deleted "Daycare deleted successfully")))
     ∧ (∀ r, r ∈ classrooms db' → Classroom.daycare_id r ≠ Some d)
     ∧ (∀ r, r ∈ children db' → Child.daycare_id r ≠ Some d))
  ∧ (∃ db',
       delete_classroom classroom_id db
       = Some (db', inr (Response 200 (Deleted "Classroom deleted successfully")))
       ∧ length (children db') = length (children db)
       ∧ ∀ r, r ∈ children db → Child.classroom_id r = Some c →
           Child.Row (Child.id r) (Child.name r) (Child.date_of_birth r) None
             (Child.daycare_id r) ∈ children db').
Proof.
  intros Hd Hind Hc Hinc. split.
  - eexists. split.
    + unfold delete_daycare. rewrite (delete_by_id_accepted _ _ _ _ d) by done.
      pose proof (delete_where_count daycare d db Hind) as Hn.
      apply Nat.eqb_neq in Hn. rewrite Hn. reflexivity.
    + assert (d ∈ Daycare.id <$> hit (λ r, Some (Daycare.id r) = Some d) (daycares db)) as Hgone.
      { apply hit_ids. unfold ids in Hind. simpl in Hind.
        by rewrite <- list_fmap_compose in Hind. }
      simpl. split; intros r Hr E.
      * apply list_elem_of_filter in Hr as [Hr _]. apply Hr. by rewrite E.
      * apply list_elem_of_filter in Hr as [Hr _]. apply Hr. by rewrite E.
  - eexists. split; [|split].
    + unfold delete_classroom. rewrite (delete_by_id_accepted _ _ _ _ c) by done.
      pose proof (delete_where_count classroom c db Hinc) as Hn.
      apply Nat.eqb_neq in Hn. rewrite Hn. reflexivity.
    + simpl. apply length_fmap.
    + intros r Hr E. simpl.
      assert (c ∈ Classroom.id <$> hit (λ r, Some (Classroom.id r) = Some c) (classrooms db)) as Hgone.
      { apply hit_ids. unfold ids in Hinc. simpl in Hinc.
        by rewrite <- list_fmap_compose in Hinc. }
      apply list_elem_of_fmap. exists r. split; [|done].
      unfold null_classroom. rewrite E. simpl.
      destruct (decide _) as [|Hno]; [done|]. by destruct Hno.
Qed.

Lemma delete_follows_foreign_keys_witness :
  (∃ db',
     delete_daycare "1" seed
     = Some (db', inr (Response 200 (Deleted "Daycare deleted successfully")))
     ∧ (∀ r, r ∈ classrooms db' → Classroom.daycare_id r ≠ Some 1)
     ∧ (∀ r, r ∈ children db' → Child.daycare_id r ≠ Some 1))
  ∧ (∃ db',
       delete_classroom "2" seed
       = Some (db', inr (Response 200 (Deleted "Classroom deleted successfully")))
       ∧ length (children db') = length (children seed)
       ∧ ∀ r, r ∈ children seed → Child.classroom_id r = Some 2 →
           Child.Row (Child.id r) (Child.name r) (Child.date_of_birth r) None
             (Child.daycare_id r) ∈ children db').
Proof.
  apply (delete_follows_foreign_keys seed "1" "2" 1 2).
  - reflexivity.
  - decide_closed.
  - reflexivity.
  - decide_closed.
Defined.

(** ** Rows that are not there *)

Lemma prepareValue_truthy (v : JS.value) :
  JS.truthy v = true → prepareValue v = Some (JS.toString v).
Proof. by destruct v. Qed.

Lemma filter_none {A} (P : A → Prop) `{!∀ x, Decision (P x)} (l : list A) :
  (∀ x, x ∈ l → ¬ P x) → filter P l = [].
Proof.
  induction l as [|a l IH]; intros Hl; [done|].
  rewrite filter_cons_False by (apply Hl; constructor).
  apply IH. intros x Hx. apply Hl. by constructor.
Qed.

Lemma filter_all {A} (P : A → Prop) `{!∀ x, Decision (P x)} (l : list A) :
  (∀ x, x ∈ l → P x) → filter P l = l.
Proof.
  induction l as [|a l IH]; intros Hl; [done|].
  rewrite filter_cons_True by (apply Hl; constructor).
  f_equal. apply IH. intros x Hx. apply Hl. by constructor.
Qed.

Lemma matching_none {A} (f : A → Z) (n : Z) (l : list A) :
  n ∉ f <$> l → matching f (Some n) l = [].
Proof.
  intros H. apply filter_none. intros x Hx [= E]. apply H.
  apply list_elem_of_fmap. by exists x.
Qed.

Lemma hit_none {A} (f : A → Z) (n : Z) (l : list A) :
  n ∉ f <$> l → hit (λ r, Some (f r) = Some n) l = [].
Proof. apply matching_none. Qed.

Lemma kept_all {A} (f : A → Z) (n : Z) (l : list A) :
  n ∉ f <$> l → kept (λ r, Some (f r) = Some n) l = l.
Proof.
  intros H. apply filter_all. intros x Hx [= E]. apply H.
  apply list_elem_of_fmap. by exists x.
Qed.

Lemma refers_nil (fk : option Z) : ¬ refers fk [].
Proof. destruct fk; simpl; intros H; [by apply not_elem_of_nil in H | done]. Qed.

Lemma null_classroom_nil (l : list Child.row) : null_classroom [] <$> l = l.
Proof.
  rewrite <- (list_fmap_id l) at 2. apply list_fmap_ext. intros _ c _.
  unfold null_classroom. destruct (decide _) as [H|]; [|done]. by apply refers_nil in H.
Qed.

Lemma ids_of (t : table) (db : database) :
  ids t db
  = match t with
    | daycare => Daycare.id <$> daycares db
    | classroom => Classroom.id <$> classrooms db
    | parent => Parent.id <$> parents db
    | child => Child.id <$> children db
    | enrollment => Enrollment.id <$> enrollments db
    end.
Proof. unfold ids. destruct t; simpl; by rewrite <- list_fmap_compose. Qed.

Lemma cascade_child_nil (db : database) : cascade_child [] db = db.
Proof.
  destruct db. unfold cascade_child, set_enrollments. simpl. f_equal.
  apply filter_all. intros; apply refers_nil.
Qed.

Lemma cascade_parent_nil (db : database) : cascade_parent [] db = db.
Proof.
  destruct db. unfold cascade_parent, set_enrollments. simpl. f_equal.
  apply filter_all. intros; apply refers_nil.
Qed.

Lemma drop_children_none (P : Child.row → Prop) `{!∀ x, Decision (P x)}
    (db : database) :
  (∀ c, c ∈ children db → ¬ P c) → drop_children P db = db.
Proof.
  intros Hno. unfold drop_children, hit, kept.
  rewrite (filter_none P) by done. rewrite filter_all by done.
  rewrite cascade_child_nil. by destruct db.
Qed.

Lemma drop_classrooms_none (P : Classroom.row → Prop) `{!∀ x, Decision (P x)}
    (db : database) :
  (∀ c, c ∈ classrooms db → ¬ P c) → drop_classrooms P db = db.
Proof.
  intros Hno. unfold drop_classrooms, hit, kept.
  rewrite (filter_none P) by done. rewrite filter_all by done.
  unfold set_null_classroom. simpl. rewrite null_classroom_nil. by destruct db.
Qed.

Lemma cascade_daycare_nil (db : database) : cascade_daycare [] db = db.
Proof.
  unfold cascade_daycare.
  rewrite (drop_classrooms_none _ db) by (intros; apply refers_nil).
  apply drop_children_none. intros; apply refers_nil.
Qed.

(** A [DELETE] whose id is not stored removes nothing and fires no
    foreign-key action. *)
Lemma delete_where_missing (t : table) (n : Z) (db : database) :
  n ∉ ids t db → delete_where t (λ k, Some k = Some n) db = (db, 0%nat).
Proof.
  rewrite ids_of. intros Hn.
  assert (∀ A (f : A → Z) (l : list A), n ∉ f <$> l →
            ∀ x, x ∈ l → ¬ Some (f x) = Some n) as Hno.
  { intros A f l Hl x Hx [= E]. apply Hl, list_elem_of_fmap. by exists x. }
  destruct t; unfold delete_where.
  - rewrite (hit_none _ n _ Hn), (kept_all _ n _ Hn). simpl.
    rewrite cascade_daycare_nil. by destruct db.
  - rewrite (hit_none _ n _ Hn). f_equal. apply drop_classrooms_none. eauto.
  - rewrite (hit_none _ n _ Hn), (kept_all _ n _ Hn). simpl.
    rewrite cascade_parent_nil. by destruct db.
  - rewrite (hit_none _ n _ Hn). f_equal. apply drop_children_none. eauto.
  - rewrite (hit_none _ n _ Hn), (kept_all _ n _ Hn). by destruct db.
Qed.

Lemma get_by_id_accepted (t : table) (missing id : string) (n : Z) (db : database) :
  Pg.int4in id = Accepted n →
  get_by_id t missing id db
  = Some (db,
          inr (let found := filter (λ r, Some (row_id r) = Some n) (rows_of t db) in
               if (length found =? 0)%nat
               then Response 404 (NotFound missing)
               else Response 200 (Data found))).
Proof.
  intros H. unfold get_by_id, try_catch, bind, pool_query, bound, prepareValue.
  simpl JS.toString. rewrite H. simpl.
  destruct (length _ =? 0)%nat; reflexivity.
Qed.

Lemma get_enrollment_decimal (id : string) (n : Z) (db : database) :
  unsigned_decimal id = Some n →
  get_enrollment id db
  = Some (db,
          inr (let found :=
                 ordered_by_id (filter (λ r, row_id r = n) (rows_of enrollment db)) in
               if (length found =? 0)%nat
               then Response 404 (NotFound "Enrollment not found")
               else Response 200 (Data found))).
Proof.
  intros H. unfold get_enrollment, try_catch, bind, simple_query.
  rewrite (parse_select_text id n H). simpl.
  destruct (length _ =? 0)%nat; reflexivity.
Qed.

Lemma delete_enrollment_decimal (id : string) (n : Z) (db : database) :
  unsigned_decimal id = Some n →
  delete_enrollment id db
  = Some (fst (delete_where enrollment (λ k, k = n) db),
          inr (Response 200 (Deleted "Enrollment deleted successfully"))).
Proof.
  intros H. unfold delete_enrollment, try_catch, bind, simple_query.
  rewrite (parse_delete_text id n H). reflexivity.
Qed.

Lemma rows_with_missing_id (t : table) (n : Z) (db : database) :
  n ∉ ids t db → filter (λ r, Some (row_id r) = Some n) (rows_of t db) = [].
Proof. intros H. by apply (matching_none row_id). Qed.

Lemma unsigned_decimal_int4in (id : string) (n : Z) :
  unsigned_decimal id = Some n → Pg.in_int4 n = true → Pg.int4in id = Accepted n.
Proof.
  intros H Hr. unfold Pg.int4in, Pg.signed_decimal.
  destruct (unsigned_decimal_digits id n H) as [Hd Hne].
  destruct id as [|c s]; [done|].
  assert (c ≠ "-"%char) as Hc.
  { intros ->. simpl in Hd. discriminate Hd. }
  assert (match c with "-"%char => Z.opp <$> unsigned_decimal s
                     | _ => unsigned_decimal (String c s) end
          = unsigned_decimal (String c s)) as ->.
  { clear -Hc. destruct c as [[] [] [] [] [] [] [] []]; try done. }
  by rewrite H, Hr.
Qed.

Ltac truthy_fields H :=
  unfold all_truthy in H; cbn [required forallb] in H;
  repeat match type of H with
         | (_ && _)%bool = true => apply andb_true_iff in H as [? H]
         end.

Ltac accepted_fields H :=
  unfold new_row in H; cbn [mbind option_bind] in H;
  repeat match type of H with
         | context [accepted ?p] => destruct p eqn:?; cbn [accepted mbind option_bind] in H
         end; try discriminate H.

(** ** What an update does *)

Lemma rewrite_rows_ext {A} (f : A → Z) (n : Z) (new : A → A) (d : A) (l : list A) :
  (∀ x, f x = n → new x = d) →
  rewrite_rows f (Some n) new l = rewrite_rows f (Some n) (λ _, d) l.
Proof.
  intros H. unfold rewrite_rows. apply list_fmap_ext. intros _ x _.
  destruct (decide _) as [[= E]|]; [by apply H | done].
Qed.

Lemma matching_id {A} (f : A → Z) (n : Z) (l : list A) (x : A) :
  x ∈ matching f (Some n) l → f x = n.
Proof. intros [[= E] _]%list_elem_of_filter. done. Qed.

Lemma matching_some {A} (f : A → Z) (n : Z) (l : list A) :
  n ∈ f <$> l → ∃ x rest, matching f (Some n) l = x :: rest ∧ f x = n.
Proof.
  intros (y & -> & Hy)%list_elem_of_fmap.
  destruct (matching f (Some (f y)) l) as [|x rest] eqn:E.
  - assert (y ∈ matching f (Some (f y)) l) as Hin by (by apply list_elem_of_filter).
    rewrite E in Hin. inversion Hin.
  - exists x, rest. split; [done|]. apply (matching_id f _ l). rewrite E. constructor.
Qed.

Lemma matching_head_id {A} (f : A → Z) (n : Z) (l : list A) (x : A) (rest : list A) :
  matching f (Some n) l = x :: rest → f x = n.
Proof. intros E. apply (matching_id f n l). rewrite E. constructor. Qed.

Ltac run_update Hid Ht Hr :=
  truthy_fields Ht; accepted_fields Hr; injection Hr as <-;
  unfold update_daycare, update_classroom, update_child, update_parent, JS.not;
  repeat match goal with H : JS.truthy _ = true |- _ =>
    rewrite H; rewrite (prepareValue_truthy _ H); clear H end;
  cbn [negb orb]; unfold try_catch, bind, pool_query, bound, prepareValue;
  cbn [JS.toString]; rewrite ?Hid;
  repeat match goal with H : Pg.int4in _ = Accepted _ |- _ => rewrite H; clear H end;
  repeat match goal with H : Pg.date_in _ = Accepted _ |- _ => rewrite H; clear H end;
  unfold assigned;
  repeat match goal with H : Pg.varchar _ _ = Accepted _ |- _ => rewrite H; clear H end.

Lemma update_daycare_run (id : string) (n : Z) (body : JS.object) (db : database)
    (r : row) :
  Pg.int4in id = Accepted n →
  all_truthy daycare body = true →
  new_row daycare n body = Some r →
  update_daycare id body db
  = if any (matching Daycare.id (Some n) (daycares db))
    then Some (store daycare n r db,
               inr (Response 200 (Updated (updated_message daycare) (Some r))))
    else Some (db, inr (Response 404 (NotFound (missing_message daycare)))).
Proof.
  intros Hid Ht Hr. run_update Hid Ht Hr.
  destruct (matching Daycare.id (Some n) (daycares db)) as [|x rest] eqn:E; [done|].
  pose proof (matching_head_id _ _ _ _ _ E) as Hx.
  cbn. rewrite Hx. do 2 f_equal. unfold store. f_equal.
  apply rewrite_rows_ext. by intros y ->.
Qed.

Lemma update_parent_run (id : string) (n : Z) (body : JS.object) (db : database)
    (r : row) :
  Pg.int4in id = Accepted n →
  all_truthy parent body = true →
  new_row parent n body = Some r →
  update_parent id body db
  = if any (matching Parent.id (Some n) (parents db))
    then Some (store parent n r db,
               inr (Response 200 (Updated (updated_message parent) (Some r))))
    else Some (db, inr (Response 404 (NotFound (missing_message parent)))).
Proof.
  intros Hid Ht Hr. run_update Hid Ht Hr.
  destruct (matching Parent.id (Some n) (parents db)) as [|x rest] eqn:E; [done|].
  pose proof (matching_head_id _ _ _ _ _ E) as Hx.
  cbn. rewrite Hx. do 2 f_equal. unfold store. f_equal.
  apply rewrite_rows_ext. by intros y ->.
Qed.

Lemma references_points_into (fk : option Z) (l : list Z) (db : database) (k : reply) :
  references fk l db k
  = if points_into fk l then k else raised db ForeignKeyViolation.
Proof.
  destruct fk as [n|]; [|done]. simpl.
  destruct (decide (n ∈ l)) as [H|H].
  - by rewrite (bool_decide_eq_true_2 _ H).
  - by rewrite (bool_decide_eq_false_2 _ H).
Qed.

Lemma update_classroom_run (id : string) (n : Z) (body : JS.object) (db : database)
    (r : row) :
  Pg.int4in id = Accepted n →
  all_truthy classroom body = true →
  new_row classroom n body = Some r →
  update_classroom id body db
  = if any (matching Classroom.id (Some n) (classrooms db))
    then if foreign_keys_hold r db
         then Some (store classroom n r db,
                    inr (Response 200 (Updated (updated_message classroom) (Some r))))
         else Some (db, inr (Response 500 (Failure ForeignKeyViolation)))
    else Some (db, inr (Response 404 (NotFound (missing_message classroom)))).
Proof.
  intros Hid Ht Hr. run_update Hid Ht Hr.
  destruct (matching Classroom.id (Some n) (classrooms db)) as [|x rest] eqn:E; [done|].
  pose proof (matching_head_id _ _ _ _ _ E) as Hx.
  unfold foreign_keys_hold. cbn [Classroom.daycare_id].
  cbn [any not_null]. rewrite references_points_into, ids_of.
  destruct (points_into _ _); [|done].
  cbn. rewrite Hx. do 2 f_equal. unfold store. f_equal.
  apply rewrite_rows_ext. by intros y ->.
Qed.

Lemma update_child_run (id : string) (n : Z) (body : JS.object) (db : database)
    (r : row) :
  Pg.int4in id = Accepted n →
  all_truthy child body = true →
  new_row child n body = Some r →
  update_child id body db
  = if any (matching Child.id (Some n) (children db))
    then if foreign_keys_hold r db
         then Some (store child n r db,
                    inr (Response 200 (Updated (updated_message child) (Some r))))
         else Some (db, inr (Response 500 (Failure ForeignKeyViolation)))
    else Some (db, inr (Response 404 (NotFound (missing_message child)))).
Proof.
  intros Hid Ht Hr. run_update Hid Ht Hr.
  destruct (matching Child.id (Some n) (children db)) as [|x rest] eqn:E; [done|].
  pose proof (matching_head_id _ _ _ _ _ E) as Hx.
  unfold foreign_keys_hold. cbn [Child.classroom_id Child.daycare_id].
  cbn [any not_null]. rewrite !references_points_into, !ids_of.
  destruct (points_into _ (Classroom.id <$> _)); [|done].
  destruct (points_into _ _); [|done].
  cbn. rewrite Hx. do 2 f_equal. unfold store. f_equal.
  apply rewrite_rows_ext. by intros y ->.
Qed.

Lemma unsigned_decimal_literal (s : string) (n : Z) :
  unsigned_decimal s = Some n → read_literal s = Some (IntLit n).
Proof.
  intros H. unfold read_literal, Pg.signed_decimal.
  destruct (unsigned_decimal_digits s n H) as [Hd Hne].
  destruct s as [|c s]; [done|].
  assert (c ≠ "-"%char) as Hc.
  { intros ->. simpl in Hd. discriminate Hd. }
  assert (match c with "-"%char => Z.opp <$> unsigned_decimal s
                     | _ => unsigned_decimal (String c s) end
          = unsigned_decimal (String c s)) as ->.
  { clear -Hc. destruct c as [[] [] [] [] [] [] [] []]; try done. }
  by rewrite H.
Qed.

Lemma assigned_literal_value (l : literal) (v : option Z) (m : bool) (db : database)
    (k : option Z → reply) :
  literal_value l = Some v → assigned_literal l m db k = k v.
Proof.
  destruct l as [n| |]; simpl; [|done|by intros [= <-]].
  destruct (Pg.in_int4 n); [by intros [= <-] | done].
Qed.

Lemma update_enrollment_run (id : string) (n : Z) (body : JS.object) (db : database)
    (r : row) :
  unsigned_decimal id = Some n →
  all_truthy enrollment body = true →
  new_row enrollment n body = Some r →
  update_enrollment id body db
  = if any (matching Enrollment.id (Some n) (enrollments db))
    then if foreign_keys_hold r db
         then Some (store enrollment n r db,
                    inr (Response 200 (Updated (updated_message enrollment) (Some r))))
         else Some (db, inr (Response 500 (Failure ForeignKeyViolation)))
    else Some (db, inr (Response 200 (Updated (updated_message enrollment) None))).
Proof.
  intros Hid Ht Hr. truthy_fields Ht.
  unfold new_row in Hr.
  destruct (read_literal (JS.toString (JS.get body "child_id"))) as [lc|] eqn:Ec;
    [|done].
  simpl in Hr. destruct (literal_value lc) as [c|] eqn:Vc; [|done].
  simpl in Hr.
  destruct (read_literal (JS.toString (JS.get body "parent_id"))) as [lp|] eqn:Ep;
    [|done].
  simpl in Hr. destruct (literal_value lp) as [p|] eqn:Vp; [|done].
  simpl in Hr. injection Hr as <-.
  unfold update_enrollment, JS.not.
  repeat match goal with H : JS.truthy _ = true |- _ => rewrite H; clear H end.
  cbn [negb orb]. unfold try_catch, bind, simple_query.
  rewrite (parse_update_text _ _ _ lc lp (IntLit n) Ec Ep (unsigned_decimal_literal _ _ Hid)).
  cbn [mbind option_bind compared_literal].
  rewrite (assigned_literal_value _ _ _ _ _ Vc), (assigned_literal_value _ _ _ _ _ Vp).
  destruct (matching Enrollment.id (Some n) (enrollments db)) as [|x rest] eqn:E; [done|].
  pose proof (matching_head_id _ _ _ _ _ E) as Hx.
  unfold foreign_keys_hold. cbn [Enrollment.child_id Enrollment.parent_id any].
  rewrite !references_points_into, !ids_of.
  destruct (points_into c _); [|done].
  destruct (points_into p _); [|done].
  cbn. rewrite Hx. do 2 f_equal. unfold store. f_equal.
  apply rewrite_rows_ext. by intros y ->.
Qed.

Lemma any_matching {A} (f : A → Z) (n : Z) (l : list A) :
  any (matching f (Some n) l) = bool_decide (n ∈ f <$> l).
Proof.
  destruct (decide (n ∈ f <$> l)) as [H|H].
  - rewrite (bool_decide_eq_true_2 _ H).
    by destruct (matching_some f n l H) as (x & rest & -> & _).
  - rewrite (bool_decide_eq_false_2 _ H). by rewrite matching_none.
Qed.

(** What an update route answers when the path parameter reads as [n],
    the required fields are truthy and the columns take them. *)
Lemma update_one_run (t : table) (id : string) (n : Z) (body : JS.object)
    (db : database) (r : row) :
  reads_as t id n →
  all_truthy t body = true →
  new_row t n body = Some r →
  update_one t id body db
  = if bool_decide (n ∈ ids t db)
    then if foreign_keys_hold r db
         then Some (store t n r db,
                    inr (Response 200 (Updated (updated_message t) (Some r))))
         else Some (db, inr (Response 500 (Failure ForeignKeyViolation)))
    else Some (db,
               inr (if decide (t = enrollment)
                    then Response 200 (Updated (updated_message t) None)
                    else Response 404 (NotFound (missing_message t)))).
Proof.
  intros Hid Ht Hr. rewrite ids_of. destruct t; cbn [update_one reads_as] in *.
  - rewrite (update_daycare_run id n body db r Hid Ht Hr), any_matching.
    accepted_fields Hr. injection Hr as <-. reflexivity.
  - rewrite (update_classroom_run id n body db r Hid Ht Hr), any_matching.
    reflexivity.
  - rewrite (update_parent_run id n body db r Hid Ht Hr), any_matching.
    accepted_fields Hr. injection Hr as <-. reflexivity.
  - rewrite (update_child_run id n body db r Hid Ht Hr), any_matching.
    reflexivity.
  - rewrite (update_enrollment_run id n body db r Hid Ht Hr), any_matching.
    reflexivity.
Qed.

Lemma new_row_shape (t : table) (n : Z) (body : JS.object) (r : row) :
  new_row t n body = Some r → in_table t r ∧ row_id r = n.
Proof.
  intros Hr. destruct t.
  1-4: accepted_fields Hr; by injection Hr as <-.
  unfold new_row in Hr.
  destruct (read_literal (JS.toString (JS.get body "child_id")) ≫= literal_value)
    as [c|]; simpl in Hr; [|done].
  destruct (read_literal (JS.toString (JS.get body "parent_id")) ≫= literal_value)
    as [p|]; simpl in Hr; [|done].
  by injection Hr as <-.
Qed.

Lemma rewrite_rows_missing {A} (f : A → Z) (n : Z) (new : A → A) (l : list A) :
  n ∉ f <$> l → rewrite_rows f (Some n) new l = l.
Proof.
  intros H. unfold rewrite_rows. rewrite <- (list_fmap_id l) at 2.
  apply list_fmap_ext. intros i x Hx. destruct (decide _) as [[= E]|]; [|done].
  destruct H. apply list_elem_of_fmap. exists x. split; [done|].
  by eapply list_elem_of_lookup_2.
Qed.

(** After a row with a unique id has been rewritten, a lookup by that
    id finds the new row and nothing else. *)
Lemma lookup_rewritten {A} (f : A → Z) (g : A → row) (n : Z) (d : A) (l : list A) :
  (∀ x, row_id (g x) = f x) → f d = n → NoDup (f <$> l) → n ∈ f <$> l →
  filter (λ r, Some (row_id r) = Some n) (g <$> rewrite_rows f (Some n) (λ _, d) l)
  = [g d].
Proof.
  intros Hg Hd. induction l as [|x l IH]; intros Hnd Hin; [inversion Hin|].
  rewrite fmap_cons in Hnd, Hin. apply NoDup_cons in Hnd as [Hx Hnd].
  unfold rewrite_rows. rewrite !fmap_cons. fold (rewrite_rows f (Some n) (λ _, d) l).
  destruct (decide (Some (f x) = Some n)) as [[= E]|Hne].
  - rewrite filter_cons_True by (by rewrite Hg, Hd). f_equal.
    rewrite E in Hx. rewrite (rewrite_rows_missing f n _ l Hx).
    apply filter_none. intros r (y & -> & Hy)%list_elem_of_fmap [= E'].
    apply Hx. apply list_elem_of_fmap. exists y. by rewrite <- Hg.
  - rewrite filter_cons_False by (rewrite Hg; done).
    apply IH; [done|]. apply elem_of_cons in Hin as [->|]; [congruence|done].
Qed.

Lemma store_rows (t : table) (n : Z) (r : row) (db : database) :
  in_table t r → row_id r = n → NoDup (ids t db) → n ∈ ids t db →
  filter (λ x, Some (row_id x) = Some n) (rows_of t (store t n r db)) = [r].
Proof.
  rewrite ids_of. intros Ht Hr Hnd Hin.
  destruct t, r as [d|d|d|d|d|]; try done; simpl in Hr; unfold store, rows_of;
    cbn [set_daycares set_classrooms set_parents set_children set_enrollments
         daycares classrooms parents children enrollments];
    by apply lookup_rewritten.
Qed.

Lemma store_ids (t : table) (n : Z) (r : row) (db : database) :
  in_table t r → row_id r = n → ids t (store t n r db) = ids t db.
Proof.
  intros Ht Hr. rewrite !ids_of.
  assert (∀ A (f : A → Z) (d : A) (l : list A), f d = n →
            f <$> rewrite_rows f (Some n) (λ _, d) l = f <$> l) as Hsame.
  { intros A f d l Hd. unfold rewrite_rows. rewrite <- list_fmap_compose.
    apply list_fmap_ext. intros _ x _. simpl.
    destruct (decide _) as [[= E]|]; congruence. }
  destruct t, r as [d|d|d|d|d|]; try done; simpl in Hr; unfold store;
    cbn [set_daycares set_classrooms set_parents set_children set_enrollments
         daycares classrooms parents children enrollments];
    by apply Hsame.
Qed.

Lemma ordered_by_id_singleton (r : row) : ordered_by_id [r] = [r].
Proof. reflexivity. Qed.

(** A lookup by id after [store]. *)
Lemma get_one_stored (t : table) (id : string) (n : Z) (r : row) (db : database) :
  reads_as t id n → in_table t r → row_id r = n →
  NoDup (ids t db) → n ∈ ids t db →
  get_one t id (store t n r db)
  = Some (store t n r db, inr (Response 200 (Data [r]))).
Proof.
  intros Hid Ht Hr Hnd Hin.
  pose proof (store_rows t n r db Ht Hr Hnd Hin) as Hrows.
  destruct t; cbn [get_one reads_as] in *;
    unfold get_daycare, get_classroom, get_parent, get_child.
  1-4: rewrite (get_by_id_accepted _ _ id n _ Hid); cbn zeta; rewrite Hrows;
    reflexivity.
  rewrite (get_enrollment_decimal id n _ Hid). cbn zeta.
  rewrite (list_filter_iff _ (λ x, Some (row_id x) = Some n)) by (intros; split; congruence).
  by rewrite Hrows.
Qed.

Lemma delete_enrollment_missing (n : Z) (db : database) :
  n ∉ ids enrollment db → delete_where enrollment (λ k, k = n) db = (db, 0%nat).
Proof.
  intros H. rewrite <- (delete_where_missing enrollment n db H).
  unfold delete_where, hit, kept. f_equal; [f_equal|f_equal];
    apply list_filter_iff; intros x; split; congruence.
Qed.

(** C1, as amended: for every table and every path parameter that
    reads as an integer matching no stored row, get-by-id answers 404;
    delete-by-id answers 404, except for enrollments, where it answers
    200, as it does whether or not a row has that id; and for the four
    tables other than enrollment, update-by-id answers 404 when the
    required fields are truthy and the columns take them.  On an id
    that matches no row the database is left as it was. *)
Theorem missing_row_answers (t : table) (id : string) (n : Z) (db : database) :
  reads_as t id n → n ∉ ids t db →
  get_one t id db = Some (db, inr (Response 404 (NotFound (missing_message t))))
  ∧ delete_one t id db
    = Some (db,
            inr (if decide (t = enrollment)
                 then Response 200 (Deleted "Enrollment deleted successfully")
                 else Response 404 (NotFound (missing_message t))))
  ∧ (t = enrollment →
     ∀ stored : database,
       ∃ db',
         delete_one t id stored
         = Some (db', inr (Response 200 (Deleted "Enrollment deleted successfully"))))
  ∧ (t ≠ enrollment →
     ∀ (body : JS.object) (r : row),
       all_truthy t body = true → new_row t n body = Some r →
       update_one t id body db
       = Some (db, inr (Response 404 (NotFound (missing_message t))))).
Proof.
  intros Hid Hn. split; [|split; [|split]].
  - pose proof (rows_with_missing_id t n db Hn) as Hrows.
    destruct t; cbn [get_one reads_as] in *;
      unfold get_daycare, get_classroom, get_parent, get_child.
    1-4: rewrite (get_by_id_accepted _ _ id n _ Hid); cbn zeta; rewrite Hrows;
      reflexivity.
    rewrite (get_enrollment_decimal id n _ Hid). cbn zeta.
    rewrite (list_filter_iff _ (λ x, Some (row_id x) = Some n))
      by (intros; split; congruence).
    by rewrite Hrows.
  - destruct t; cbn [delete_one reads_as] in *;
      unfold delete_daycare, delete_classroom, delete_parent, delete_child.
    1-4: rewrite (delete_by_id_accepted _ _ _ id n _ Hid);
      rewrite (delete_where_missing _ n db Hn); reflexivity.
    rewrite (delete_enrollment_decimal id n _ Hid).
    rewrite (delete_enrollment_missing n db Hn). reflexivity.
  - intros -> stored. cbn [delete_one reads_as] in *.
    rewrite (delete_enrollment_decimal id n _ Hid). by eexists.
  - intros Ht body r Htruthy Hr.
    rewrite (update_one_run t id n body db r Hid Htruthy Hr).
    rewrite (bool_decide_eq_false_2 _ Hn). by destruct (decide (t = enrollment)).
Qed.

Lemma missing_row_answers_witness :
  (get_one parent "9" seed
   = Some (seed, inr (Response 404 (NotFound (missing_message parent))))
   ∧ delete_one parent "9" seed
     = Some (seed, inr (Response 404 (NotFound (missing_message parent))))
   ∧ update_one parent "9"
       {[ "name" := JS.Str "Eve Adams"; "phone" := JS.Str "555-000-1111";
          "email" := JS.Str "eve.adams@email.com" ]} seed
     = Some (seed, inr (Response 404 (NotFound (missing_message parent)))))
  ∧ (get_one enrollment "9" seed
     = Some (seed, inr (Response 404 (NotFound (missing_message enrollment))))
     ∧ delete_one enrollment "9" seed
       = Some (seed, inr (Response 200 (Deleted "Enrollment deleted successfully")))
     ∧ ∃ db',
         delete_one enrollment "9"
           (Database [] [] [] [] [Enrollment.Row 9 None None])
         = Some (db', inr (Response 200 (Deleted "Enrollment deleted successfully")))).
Proof.
  split.
  - assert (reads_as parent "9" 9) as Hid by reflexivity.
    assert (9 ∉ ids parent seed) as Hn by decide_closed.
    destruct (missing_row_answers parent "9" 9 seed Hid Hn) as (Hget & Hdel & _ & Hupd).
    split; [exact Hget|]. split; [exact Hdel|].
    apply (Hupd ltac:(done) _
             (OfParent (Parent.Row 9 "Eve Adams" (Some "555-000-1111")
                          (Some "eve.adams@email.com")))); reflexivity.
  - assert (reads_as enrollment "9" 9) as Hid by reflexivity.
    assert (9 ∉ ids enrollment seed) as Hn by decide_closed.
    destruct (missing_row_answers enrollment "9" 9 seed Hid Hn) as (Hget & Hdel & Hany & _).
    split; [exact Hget|]. split; [exact Hdel|]. exact (Hany eq_refl _).
Defined.

(** C1, as stated, fails: an update on an id that matches no row
    answers 400 when a required field is missing and, for enrollments,
    200; a get on an id that is no integer answers 500. *)
Lemma unmatched_id_not_always_404 :
  (99 ∉ ids daycare seed) ∧ (99 ∉ ids enrollment seed)
  ∧ update_one daycare "99" ∅ seed
    = Some (seed,
            inr (Response 400
                   (BadRequest "All fields (name, address, phone, email) are required")))
  ∧ update_one enrollment "99" {[ "child_id" := JS.Num 1; "parent_id" := JS.Num 1 ]} seed
    = Some (seed, inr (Response 200 (Updated "Enrollment updated successfully" None)))
  ∧ get_one daycare "abc" seed
    = Some (seed, inr (Response 500 (Failure InvalidTextRepresentation))).
Proof.
  split; [decide_closed|]. split; [decide_closed|].
  split; [reflexivity|]. split; vm_compute; reflexivity.
Qed.

(** ** Updates of stored rows *)

(** C4, as amended: for every table, an update whose required fields
    are truthy and taken by the columns, whose foreign keys point at
    stored rows, and whose path parameter reads as the id of a stored
    row (ids being unique) answers 200 with the new row as
    [updated_data]; the row is stored under the same id, and a get by
    that id then answers 200 with exactly that row. *)
Theorem update_persists_and_get_agrees
    (t : table) (id : string) (n : Z) (body : JS.object) (db : database) (r : row) :
  reads_as t id n → NoDup (ids t db) → n ∈ ids t db →
  all_truthy t body = true → new_row t n body = Some r →
  foreign_keys_hold r db = true →
  ∃ db',
    update_one t id body db
    = Some (db', inr (Response 200 (Updated (updated_message t) (Some r))))
    ∧ r ∈ rows_of t db'
    ∧ ids t db' = ids t db
    ∧ get_one t id db' = Some (db', inr (Response 200 (Data [r]))).
Proof.
  intros Hid Hnd Hin Htruthy Hr Hfk.
  destruct (new_row_shape t n body r Hr) as [Ht Hn].
  exists (store t n r db). split; [|split; [|split]].
  - rewrite (update_one_run t id n body db r Hid Htruthy Hr).
    by rewrite (bool_decide_eq_true_2 _ Hin), Hfk.
  - pose proof (store_rows t n r db Ht Hn Hnd Hin) as Hrows.
    assert (r ∈ filter (λ x, Some (row_id x) = Some n) (rows_of t (store t n r db)))
      as Hr' by (rewrite Hrows; constructor).
    by apply list_elem_of_filter in Hr' as [_ ?].
  - by apply store_ids.
  - by apply get_one_stored.
Qed.

Lemma update_persists_and_get_agrees_witness :
  ∃ db',
    update_one child "5"
      {[ "name" := JS.Str "Sophia Smith"; "date_of_birth" := JS.Str "2022-01-30";
         "classroom_id" := JS.Num 3; "daycare_id" := JS.Str "2" ]} seed
    = Some (db',
            inr (Response 200
                   (Updated (updated_message child)
                      (Some (OfChild (Child.Row 5 "Sophia Smith" (Pg.Date 2022 1 30)
                                        (Some 3) (Some 2)))))))
    ∧ OfChild (Child.Row 5 "Sophia Smith" (Pg.Date 2022 1 30) (Some 3) (Some 2))
      ∈ rows_of child db'
    ∧ ids child db' = ids child seed
    ∧ get_one child "5" db'
      = Some (db',
              inr (Response 200
                     (Data [OfChild (Child.Row 5 "Sophia Smith" (Pg.Date 2022 1 30)
                                       (Some 3) (Some 2))]))).
Proof.
  apply (update_persists_and_get_agrees child "5" 5).
  - reflexivity.
  - decide_closed.
  - decide_closed.
  - reflexivity.
  - reflexivity.
  - reflexivity.
Defined.

(** C4, as stated, fails: truthy fields and a stored id do not make
    an update answer 200.  A classroom pointed at a daycare that does
    not exist is refused by the foreign key, a phone number longer
    than the column by its length, a [daycare_id] that is no integer
    by its type; each time the route answers 500 and nothing is
    stored. *)
Lemma truthy_update_can_answer_500 :
  all_truthy classroom {[ "name" := JS.Str "Blue Butterflies"; "daycare_id" := JS.Num 3 ]}
  = true
  ∧ 1 ∈ ids classroom seed
  ∧ update_one classroom "1"
      {[ "name" := JS.Str "Blue Butterflies"; "daycare_id" := JS.Num 3 ]} seed
    = Some (seed, inr (Response 500 (Failure ForeignKeyViolation)))
  ∧ update_one parent "1"
      {[ "name" := JS.Str "Alice Johnson"; "phone" := JS.Str "+351 555-123-4567 ext. 89";
         "email" := JS.Str "alice.johnson@email.com" ]} seed
    = Some (seed, inr (Response 500 (Failure StringDataRightTruncation)))
  ∧ update_one classroom "1"
      {[ "name" := JS.Str "Blue Butterflies"; "daycare_id" := JS.Bool true ]} seed
    = Some (seed, inr (Response 500 (Failure InvalidTextRepresentation))).
Proof.
  split; [reflexivity|]. split; [decide_closed|].
  repeat split; vm_compute; reflexivity.
Qed.

(** ** The enrollment update route *)

(** C9, as amended: with truthy [child_id] and [parent_id] that the
    integer columns take, and a decimal id that matches no stored row,
    [PUT /update_enrollment/:id] answers 200 with status "success" and
    no [updated_data], leaving the database as it was; and whatever
    the request, the route never answers 404. *)
Theorem update_enrollment_skips_row_count :
  (∀ (id : string) (n : Z) (body : JS.object) (db : database) (r : row),
     unsigned_decimal id = Some n → n ∉ ids enrollment db →
     all_truthy enrollment body = true → new_row enrollment n body = Some r →
     update_enrollment id body db
     = Some (db, inr (Response 200 (Updated "Enrollment updated successfully" None))))
  ∧ (∀ (id : string) (body : JS.object) (db db' : database) (res : response),
       update_enrollment id body db = Some (db', inr res) → status res ≠ 404).
Proof.
  split.
  - intros id n body db r Hid Hn Htruthy Hr.
    rewrite (update_enrollment_run id n body db r Hid Htruthy Hr), any_matching.
    rewrite <- (ids_of enrollment). by rewrite (bool_decide_eq_false_2 _ Hn).
  - intros id body db db' res. unfold update_enrollment.
    destruct (_ || _)%bool; [by intros [= <- <-]|].
    unfold try_catch, bind.
    destruct (simple_query _ db) as [[db1 [e|rs]]|]; cbn; [by intros [= <- <-]| |done].
    destruct (rows_property rs); cbn; by intros [= <- <-].
Qed.

Lemma update_enrollment_skips_row_count_witness :
  update_enrollment "99" {[ "child_id" := JS.Num 1; "parent_id" := JS.Str "2" ]} seed
  = Some (seed, inr (Response 200 (Updated "Enrollment updated successfully" None))).
Proof.
  apply (proj1 update_enrollment_skips_row_count "99" 99 _ seed
           (OfEnrollment (Enrollment.Row 99 (Some 1) (Some 2)))).
  - reflexivity.
  - decide_closed.
  - reflexivity.
  - reflexivity.
Defined.

(** C9, as stated, fails: a truthy [child_id] that is no integer, or
    an id that is none, makes the statement ill-typed, and the route
    answers 500. *)
Lemma truthy_enrollment_update_can_answer_500 :
  all_truthy enrollment {[ "child_id" := JS.Bool true; "parent_id" := JS.Num 1 ]} = true
  ∧ (99 ∉ ids enrollment seed)
  ∧ update_enrollment "99" {[ "child_id" := JS.Bool true; "parent_id" := JS.Num 1 ]} seed
    = Some (seed, inr (Response 500 (Failure DatatypeMismatch)))
  ∧ update_enrollment "true" {[ "child_id" := JS.Num 1; "parent_id" := JS.Num 1 ]} seed
    = Some (seed, inr (Response 500 (Failure UndefinedFunction))).
Proof.
  split; [reflexivity|]. split; [decide_closed|].
  split; vm_compute; reflexivity.
Qed.

(** ** Read-only routes *)

(** The health route, the list routes and the parameterised get-by-id
    routes leave the database as it was, whatever they answer; so does
    the enrollment get-by-id route when its path parameter is a
    decimal integer. *)
Lemma read_only_routes (db db' : database) (x : error + response) :
  (health db = Some (db', x) → db' = db)
  ∧ (∀ t, list_all t db = Some (db', x) → db' = db)
  ∧ (∀ t id, t ≠ enrollment → get_one t id db = Some (db', x) → db' = db)
  ∧ (∀ id n, unsigned_decimal id = Some n →
       get_enrollment id db = Some (db', x) → db' = db).
Proof.
  split; [by intros [= <- _]|]. split; [|split].
  - intros t. rewrite list_all_listing. by intros [= <- _].
  - intros t id Ht. 
    assert (get_one t id = get_by_id t (missing_message t) id) as ->
      by (by destruct t).
    unfold get_by_id, try_catch, bind, pool_query, bound, prepareValue.
    cbn [JS.toString]. destruct (Pg.int4in id); cbn; [|by intros [= <- _]|done].
    destruct (length _ =? 0)%nat; by intros [= <- _].
  - intros id n Hid. rewrite (get_enrollment_decimal id n db Hid). by intros [= <- _].
Qed.

(** The scrape routes leave the whole state as it was. *)
Lemma scrape_leaves_state (st st' : app_state) (r : response) :
  scrape st = Some (st', r) → st' = st.
Proof. by intros [= <- _]. Qed.

(** C10 (the enrollment get-by-id route): the path parameter is spliced
    into the statement text, so a request can stack a [DELETE] behind
    the [SELECT].  Whatever the database, after
    [GET /get_enrollment/0;DELETE FROM parent;--] no parent is left,
    and the route has answered 500; on the seeded database four
    parents and five enrollments are gone. *)
Theorem get_enrollment_can_delete :
  (∀ db : database,
     ∃ db',
       get_enrollment "0;DELETE FROM parent;--" db
       = Some (db', inr (Response 500 (Failure TypeError)))
       ∧ parents db' = [])
  ∧ ∃ db',
      get_enrollment "0;DELETE FROM parent;--" seed
      = Some (db', inr (Response 500 (Failure TypeError)))
      ∧ length (parents seed) = 4%nat ∧ parents db' = []
      ∧ length (enrollments seed) = 5%nat ∧ enrollments db' = []
      ∧ db' ≠ seed.
Proof.
  split.
  - intros db. eexists. split; [reflexivity|]. cbn.
    apply filter_none. intros p _ H. by apply H.
  - eexists. split; [vm_compute; reflexivity|]. by repeat split.
Qed.

(** ** GET requests and the stored tables *)

Lemma on_db_frame (m : M response) (st st' : app_state) (r : response) :
  (∀ db' x, m (db st) = Some (db', x) → db' = db st) →
  on_db m st = Some (st', r) → db st' = db st.
Proof.
  intros Hm. unfold on_db. destruct (m (db st)) as [[db1 [e|x]]|] eqn:E; try done.
  intros [= <- _]. cbn. by eapply Hm.
Qed.

Lemma routes_read_only (req : request) :
  (∀ id, matches_id "/get_enrollment/" (req_path req) = Some id →
         is_Some (unsigned_decimal id)) →
  Forall (reads_only req) routes.
Proof.
  intros Hdec. unfold routes, setupMetrics. apply Forall_app. split.
  all: repeat (constructor;
    [ intros Hm; cbn [fst snd] in *; try discriminate Hm;
      first
        [ by intros st st' r [= <- _]
        | intros st st' r; apply on_db_frame; intros db' x; first
            [ exact (proj1 (read_only_routes (db st) db' x))
            | exact (proj1 (proj2 (read_only_routes (db st) db' x)) daycare)
            | exact (proj1 (proj2 (read_only_routes (db st) db' x)) classroom)
            | exact (proj1 (proj2 (read_only_routes (db st) db' x)) enrollment)
            | exact (proj1 (proj2 (read_only_routes (db st) db' x)) child)
            | exact (proj1 (proj2 (read_only_routes (db st) db' x)) parent) ]
        | intros id Hid st st' r; apply on_db_frame; intros db' x; first
            [ exact (proj1 (proj2 (proj2 (read_only_routes (db st) db' x)))
                       daycare id ltac:(done))
            | exact (proj1 (proj2 (proj2 (read_only_routes (db st) db' x)))
                       classroom id ltac:(done))
            | exact (proj1 (proj2 (proj2 (read_only_routes (db st) db' x)))
                       child id ltac:(done))
            | exact (proj1 (proj2 (proj2 (read_only_routes (db st) db' x)))
                       parent id ltac:(done))
            | destruct (Hdec id Hid) as [n Hn];
              exact (proj2 (proj2 (proj2 (read_only_routes (db st) db' x))) id n Hn) ] ]
    |]).
  all: constructor.
Qed.

Lemma find_route_reads_only (rs : list (method * target)) (req : request)
    (path : string) (h : app_state → option (app_state * response))
    (st st' : app_state) (r : response) :
  req_method req = GET → Forall (reads_only req) rs →
  find_route rs req = Some (path, h) → h st = Some (st', r) →
  db st' = db st.
Proof.
  intros Hget. induction rs as [|[m t] rs IH]; intros Hall; [done|].
  apply Forall_cons in Hall as [Ht Hall]. cbn [find_route].
  destruct (decide (m = req_method req)) as [Hm|]; [|by apply IH].
  rewrite Hget in Hm. specialize (Ht Hm).
  destruct t as [p h0|p h0]; cbn [snd] in Ht.
  - destruct (matches_path p (req_path req)); [|by apply IH].
    intros [= <- <-]. apply Ht.
  - destruct (matches_id p (req_path req)) as [id|] eqn:E; [|by apply IH].
    intros [= <- <-]. by apply Ht.
Qed.

(** X18: every GET request the application answers leaves the stored
    tables as they were, provided that the id of a request to
    [/get_enrollment/:id] is a decimal integer. *)
Lemma get_requests_leave_database (req : request) (elapsed : N) (st st' : app_state)
    (r : response) :
  req_method req = GET →
  (∀ id, matches_id "/get_enrollment/" (req_path req) = Some id →
         is_Some (unsigned_decimal id)) →
  serve req elapsed st = Some (st', r) →
  db st' = db st.
Proof.
  intros Hget Hdec.
  assert (∀ st1 out, dispatch req st = Some (st1, out) → db st1 = db st) as Hd.
  { intros st1 [r1 route]. unfold dispatch.
    destruct (find_route routes req) as [[path h]|] eqn:E.
    - destruct (h st) as [[st2 r2]|] eqn:Eh; cbn; [|done].
      intros [= <- _ _]. eapply find_route_reads_only; [done|by apply routes_read_only|done..].
    - destruct (under_api _); [done|]. by intros [= <- _ _]. }
  unfold serve, metricsMiddleware.
  destruct (dispatch req st) as [[st1 [r1 route]]|] eqn:E;
    [|by destruct (decide _)].
  specialize (Hd _ _ eq_refl).
  destruct (decide _); cbn; by intros [= <- _].
Qed.

(** ** The latency histogram *)

(** C7: the request-duration histogram is named
    [http_request_duration_seconds], is labelled by method, route and
    code, and has exactly the ten bucket bounds 0.005, 0.01, 0.025,
    0.05, 0.1, 0.25, 0.5, 1, 2 and 5 seconds, that is 5, 10, 25, 50,
    100, 250, 500, 1000, 2000 and 5000 milliseconds; in the exposition
    every time series has one bucket line per bound, and the [+Inf]
    bucket. *)
Theorem histogram_buckets_and_labels :
  name httpDuration = "http_request_duration_seconds"
  ∧ labelNames httpDuration = ["method"; "route"; "code"]
  ∧ buckets httpDuration = [0.005; 0.01; 0.025; 0.05; 0.1; 0.25; 0.5; 1; 2; 5]%Q
  ∧ Forall2 (λ (b : Q) (ms : Z), (b * 1000 == inject_Z ms)%Q)
      (buckets httpDuration) [5; 10; 25; 50; 100; 250; 500; 1000; 2000; 5000]
  ∧ ∀ (reg : observations) (l : labels) (le : option Q),
      l ∈ series reg →
      ((∃ count, Bucket l le count ∈ exposition httpDuration reg)
       ↔ le ∈ (Some <$> buckets httpDuration) ++ [None])%list.
Proof.
  split; [reflexivity|]. split; [reflexivity|]. split; [reflexivity|]. split.
  - repeat constructor.
  - intros reg l le Hl. unfold exposition. split.
    + intros (count & (l' & Hin & _)%list_elem_of_bind).
      apply elem_of_app in Hin as [(b & [= -> -> _] & Hb)%list_elem_of_fmap|Hin].
      * apply elem_of_app. left. by apply list_elem_of_fmap_2.
      * apply elem_of_app. right.
        apply elem_of_cons in Hin as [[= -> -> _]|Hin]; [constructor|].
        apply elem_of_cons in Hin as [[=]|Hin].
        apply list_elem_of_singleton in Hin. discriminate Hin.
    + intros [(b & -> & Hb)%list_elem_of_fmap|Hin%list_elem_of_singleton]%elem_of_app.
      * exists (at_most b (values_of l reg)).
        apply list_elem_of_bind. exists l. split; [|done].
        apply elem_of_app. left.
        by apply (list_elem_of_fmap_2 (λ b, Bucket l (Some b) (at_most b (values_of l reg)))).
      * subst le. exists (length (values_of l reg)).
        apply list_elem_of_bind. exists l. split; [|done].
        apply elem_of_app. right. constructor.
Qed.

Lemma histogram_buckets_and_labels_witness :
  (∃ count,
     Bucket (Labels "GET" "/health" 200) (Some 0.25%Q) count
     ∈ exposition httpDuration [(Labels "GET" "/health" 200, 0.007%Q)])
  ↔ Some 0.25%Q ∈ ((Some <$> buckets httpDuration) ++ [None])%list.
Proof.
  apply (proj2 (proj2 (proj2 (proj2 histogram_buckets_and_labels)))).
  decide_closed.
Defined.

(** ** The router *)

Example route_update_daycare (body : JS.object) :
  find_route routes (Request PUT "/update_daycare/7" body)
  = Some ("/update_daycare/:id", on_db (update_daycare "7" body)).
Proof. reflexivity. Qed.

Example route_ignores_case_and_trailing_slash :
  fst <$> find_route routes (Request GET "/Get_Enrollment/12/" ∅)
  = Some "/get_enrollment/:id"
  ∧ fst <$> find_route routes (Request GET "/metrics/" ∅) = Some "/metrics".
Proof. split; reflexivity. Qed.

Example route_needs_method_and_id :
  find_route routes (Request POST "/get_daycares" ∅) = None
  ∧ find_route routes (Request GET "/get_daycare/" ∅) = None.
Proof. split; reflexivity. Qed.

(** ** The metrics middleware *)

Lemma on_db_keeps_registry (m : M response) (st st' : app_state) (r : response) :
  on_db m st = Some (st', r) → registry st' = registry st.
Proof.
  unfold on_db. destruct (m (db st)) as [[db1 [e|x]]|]; try done.
  by intros [= <- _].
Qed.

Lemma routes_keep_registry_all : Forall (λ mt, keeps_registry (snd mt)) routes.
Proof.
  unfold routes, setupMetrics. apply Forall_app. split.
  all: repeat (constructor;
          [first [ by intros st st' r [= <- _]
                 | intros st st' r; apply on_db_keeps_registry
                 | intros id body st st' r; apply on_db_keeps_registry ] |]).
  all: constructor.
Qed.

Lemma find_route_keeps_registry (rs : list (method * target)) (req : request)
    (path : string) (h : app_state → option (app_state * response))
    (st st' : app_state) (r : response) :
  Forall (λ mt, keeps_registry (snd mt)) rs →
  find_route rs req = Some (path, h) → h st = Some (st', r) →
  registry st' = registry st.
Proof.
  induction rs as [|[m t] rs IH]; intros Hall; [done|].
  apply Forall_cons in Hall as [Ht Hall]. cbn [find_route].
  destruct (decide (m = req_method req)); [|by apply IH].
  destruct t as [p h0|p h0]; cbn [snd keeps_registry] in Ht.
  - destruct (matches_path p (req_path req)); [|by apply IH].
    intros [= <- <-]. apply Ht.
  - destruct (matches_id p (req_path req)) as [id|]; [|by apply IH].
    intros [= <- <-]. apply Ht.
Qed.

(** A request whose path is [/metrics] or [/api/metrics], letter for
    letter, is not observed. *)
Lemma scrape_paths_not_observed (req : request) (elapsed : N) (st st' : app_state)
    (r : response) :
  req_path req ∈ skipPaths →
  serve req elapsed st = Some (st', r) →
  registry st' = registry st.
Proof.
  intros Hp. unfold serve, metricsMiddleware. rewrite decide_True by done.
  unfold dispatch. destruct (find_route routes req) as [[path h]|] eqn:E.
  - destruct (h st) as [[st1 r1]|] eqn:Eh; cbn; [|done].
    intros [= <- _]. eapply find_route_keeps_registry; [apply routes_keep_registry_all|done..].
  - destruct (under_api _); cbn; [done|]. by intros [= <- _].
Qed.

(** C6 (the spelling of the scrape paths): the middleware compares the
    request path with [/metrics] letter for letter, while the router
    also serves [/metrics/] through the same route.  A scrape spelled
    [GET /metrics/] is therefore timed, and the next scrape shows a
    time series labelled with the route [/metrics]. *)
Theorem scrape_with_trailing_slash_is_observed (t1 t2 : N) :
  ∃ st1 st2 samples,
    serve (Request GET "/metrics/" ∅) t1 (AppState seed [])
    = Some (st1, Response 200 (Metrics []))
    ∧ serve (Request GET "/metrics" ∅) t2 st1
      = Some (st2, Response 200 (Metrics samples))
    ∧ Count (Labels "GET" "/metrics" 200) 1 ∈ samples
    ∧ ∃ s, s ∈ samples ∧ route_label (sample_labels s) = "/metrics".
Proof.
  eexists _, _, _. split; [reflexivity|]. split; [reflexivity|].
  assert (Count (Labels "GET" "/metrics" 200) 1
          ∈ exposition httpDuration
              [(Labels "GET" "/metrics" 200, (Z.of_N t1 # 1000000000)%Q)]) as H.
  { apply list_elem_of_bind. exists (Labels "GET" "/metrics" 200).
    split; [|by constructor].
    apply elem_of_app. right. do 2 right. constructor. }
  split; [exact H|]. eexists. split; [exact H|reflexivity].
Qed.

(** * Further properties *)

(** ** Lookups of stored rows *)

Lemma filter_unique {A} (f : A → Z) (l : list A) (r : A) :
  NoDup (f <$> l) → r ∈ l → filter (λ x, Some (f x) = Some (f r)) l = [r].
Proof.
  induction l as [|x l IH]; intros Hnd Hin; [inversion Hin|].
  rewrite fmap_cons in Hnd. apply NoDup_cons in Hnd as [Hx Hnd].
  apply elem_of_cons in Hin as [->|Hin].
  - rewrite filter_cons_True by done. f_equal.
    apply filter_none. intros y Hy [= E]. apply Hx. rewrite <- E.
    by apply list_elem_of_fmap_2.
  - rewrite filter_cons_False; [by apply IH|].
    intros [= E]. apply Hx. rewrite E. by apply list_elem_of_fmap_2.
Qed.

Lemma get_one_rows (t : table) (id : string) (n : Z) (db : database) :
  reads_as t id n →
  get_one t id db
  = Some (db,
          inr (let found := filter (λ r, Some (row_id r) = Some n) (rows_of t db) in
               if (length found =? 0)%nat
               then Response 404 (NotFound (missing_message t))
               else Response 200 (Data (if decide (t = enrollment)
                                        then ordered_by_id found else found)))).
Proof.
  intros Hid. destruct t; cbn [get_one reads_as] in *;
    unfold get_daycare, get_classroom, get_parent, get_child.
  1-4: by rewrite (get_by_id_accepted _ _ id n _ Hid).
  rewrite (get_enrollment_decimal id n _ Hid). cbn zeta.
  rewrite (list_filter_iff _ (λ x, Some (row_id x) = Some n))
    by (intros; split; congruence).
  by rewrite ordered_by_id_length.
Qed.

(** X1: for every table, a get by the id of a stored row answers 200
    with exactly that row as [data], ids being unique, and leaves the
    database as it was. *)
Theorem get_finds_stored_row (t : table) (id : string) (db : database) (r : row) :
  reads_as t id (row_id r) → NoDup (ids t db) → r ∈ rows_of t db →
  get_one t id db = Some (db, inr (Response 200 (Data [r]))).
Proof.
  intros Hid Hnd Hr. rewrite (get_one_rows t id _ db Hid). cbn zeta.
  rewrite (filter_unique row_id _ r Hnd Hr). cbn.
  by destruct (decide (t = enrollment)).
Qed.

Lemma get_finds_stored_row_witness :
  get_one child "3" seed
  = Some (seed,
          inr (Response 200
                 (Data [OfChild (Child.Row 3 "Olivia Lee" (Pg.Date 2021 2 25)
                                   (Some 3) (Some 2))]))).
Proof.
  apply (get_finds_stored_row child "3" seed
           (OfChild (Child.Row 3 "Olivia Lee" (Pg.Date 2021 2 25) (Some 3) (Some 2)))).
  - reflexivity.
  - decide_closed.
  - decide_closed.
Defined.

(** ** What a delete removes *)

Lemma filter_fmap {A B} (f : A → B) (P : B → Prop) `{!∀ x, Decision (P x)}
    (l : list A) :
  filter P (f <$> l) = f <$> filter (λ x, P (f x)) l.
Proof.
  induction l as [|x l IH]; [done|]. rewrite fmap_cons.
  destruct (decide (P (f x))) as [Hx|Hx].
  - rewrite !filter_cons_True by done. by rewrite fmap_cons, IH.
  - by rewrite !filter_cons_False by done.
Qed.

(** A [DELETE] looks at the id only. *)
Lemma delete_where_ext (t : table) (P Q : Z → Prop) `{!∀ n, Decision (P n)}
    `{!∀ n, Decision (Q n)} (db : database) :
  (∀ k, P k ↔ Q k) → delete_where t P db = delete_where t Q db.
Proof.
  intros HPQ.
  assert (∀ A (f : A → Z) (l : list A),
            hit (λ r, P (f r)) l = hit (λ r, Q (f r)) l) as Hhit.
  { intros A f l. apply list_filter_iff. intros x. apply HPQ. }
  assert (∀ A (f : A → Z) (l : list A),
            kept (λ r, P (f r)) l = kept (λ r, Q (f r)) l) as Hkept.
  { intros A f l. apply list_filter_iff. intros x. by rewrite HPQ. }
  destruct t; unfold delete_where, drop_classrooms, drop_children;
    by rewrite ?Hhit, ?Hkept.
Qed.

(** In its own table a [DELETE] leaves the rows it does not address,
    as they were and in their order. *)
Lemma delete_where_rows (t : table) (P : Z → Prop) `{!∀ n, Decision (P n)}
    (db : database) :
  rows_of t (fst (delete_where t P db))
  = filter (λ r, ¬ P (row_id r)) (rows_of t db).
Proof. destruct t; cbn; by rewrite filter_fmap. Qed.

Lemma delete_where_ids (t : table) (P : Z → Prop) `{!∀ n, Decision (P n)}
    (db : database) :
  ids t (fst (delete_where t P db)) = filter (λ k, ¬ P k) (ids t db).
Proof. unfold ids. by rewrite delete_where_rows, filter_fmap. Qed.

(** What a delete route answers on an id that reads as [n]. *)
Lemma delete_one_run (t : table) (id : string) (n : Z) (db : database) :
  reads_as t id n →
  delete_one t id db
  = Some (fst (delete_where t (λ k, k = n) db),
          inr (if decide (t = enrollment)
               then Response 200 (Deleted (deleted_message t))
               else if bool_decide (n ∈ ids t db)
                    then Response 200 (Deleted (deleted_message t))
                    else Response 404 (NotFound (missing_message t)))).
Proof.
  intros Hid.
  assert (delete_where t (λ k, Some k = Some n) db = delete_where t (λ k, k = n) db) as E.
  { apply delete_where_ext. intros k. split; congruence. }
  assert ((snd (delete_where t (λ k, Some k = Some n) db) =? 0)%nat
          = negb (bool_decide (n ∈ ids t db))) as Hc.
  { destruct (decide (n ∈ ids t db)) as [Hin|Hin].
    - rewrite (bool_decide_eq_true_2 _ Hin). apply Nat.eqb_neq.
      by apply delete_where_count.
    - rewrite (bool_decide_eq_false_2 _ Hin). by rewrite delete_where_missing. }
  destruct t; cbn [delete_one reads_as] in *;
    unfold delete_daycare, delete_classroom, delete_parent, delete_child.
  1-4: rewrite (delete_by_id_accepted _ _ _ id n _ Hid), Hc, E;
    by destruct (bool_decide _).
  by rewrite (delete_enrollment_decimal id n _ Hid).
Qed.

(** X2: for every table, deleting a stored row by its id answers 200
    and removes from the table the rows with that id and no other;
    after that a get by the same id answers 404, and a second delete
    answers 404 (200 for enrollments, whose route does not look at the
    row count) and changes nothing. *)
Theorem delete_then_get_answers_404 (t : table) (id : string) (n : Z) (db : database) :
  reads_as t id n → n ∈ ids t db →
  ∃ db',
    delete_one t id db = Some (db', inr (Response 200 (Deleted (deleted_message t))))
    ∧ rows_of t db' = filter (λ r, row_id r ≠ n) (rows_of t db)
    ∧ get_one t id db' = Some (db', inr (Response 404 (NotFound (missing_message t))))
    ∧ delete_one t id db'
      = Some (db',
              inr (if decide (t = enrollment)
                   then Response 200 (Deleted (deleted_message t))
                   else Response 404 (NotFound (missing_message t)))).
Proof.
  intros Hid Hin. exists (fst (delete_where t (λ k, k = n) db)).
  assert (n ∉ ids t (fst (delete_where t (λ k, k = n) db))) as Hout.
  { rewrite delete_where_ids. by intros [? _]%list_elem_of_filter. }
  split; [|split; [|split]].
  - rewrite (delete_one_run t id n db Hid), (bool_decide_eq_true_2 _ Hin).
    by destruct (decide (t = enrollment)).
  - apply delete_where_rows.
  - rewrite (get_one_rows t id n _ Hid). cbn zeta.
    by rewrite (rows_with_missing_id t n _ Hout).
  - rewrite (delete_one_run t id n _ Hid), (bool_decide_eq_false_2 _ Hout).
    f_equal. f_equal.
    rewrite (delete_where_ext t _ (λ k, Some k = Some n)) by (intros; split; congruence).
    by rewrite (delete_where_missing t n _ Hout).
Qed.

Lemma delete_then_get_answers_404_witness :
  ∃ db',
    delete_one parent "2" seed
    = Some (db', inr (Response 200 (Deleted (deleted_message parent))))
    ∧ rows_of parent db' = filter (λ r, row_id r ≠ 2) (rows_of parent seed)
    ∧ get_one parent "2" db'
      = Some (db', inr (Response 404 (NotFound (missing_message parent))))
    ∧ delete_one parent "2" db'
      = Some (db', inr (Response 404 (NotFound (missing_message parent)))).
Proof.
  apply (delete_then_get_answers_404 parent "2" 2 seed).
  - reflexivity.
  - decide_closed.
Defined.

(** X3: the enrollments follow their child and their parent, and
    through the child its daycare.  Deleting a stored child (a stored
    parent) answers 200 and removes exactly the enrollments whose
    [child_id] ([parent_id]) is the deleted id; after a stored daycare
    is deleted no enrollment is left for a child that belonged to
    it. *)
Theorem delete_cascades_to_enrollments (id : string) (n : Z) (db : database) :
  Pg.int4in id = Accepted n →
  (n ∈ ids child db →
   ∃ db',
     delete_child id db
     = Some (db', inr (Response 200 (Deleted "Child deleted successfully")))
     ∧ enrollments db'
       = filter (λ e, Enrollment.child_id e ≠ Some n) (enrollments db))
  ∧ (n ∈ ids parent db →
     ∃ db',
       delete_parent id db
       = Some (db', inr (Response 200 (Deleted "Parent deleted successfully")))
       ∧ enrollments db'
         = filter (λ e, Enrollment.parent_id e ≠ Some n) (enrollments db))
  ∧ (n ∈ ids daycare db →
     ∃ db',
       delete_daycare id db
       = Some (db', inr (Response 200 (Deleted "Daycare deleted successfully")))
       ∧ ∀ c e, c ∈ children db → Child.daycare_id c = Some n →
           e ∈ enrollments db' → Enrollment.child_id e ≠ Some (Child.id c)).
Proof.
  intros Hid.
  assert (∀ A (f : A → Z) (l : list A) (fk : option Z), n ∈ f <$> l →
            refers fk (f <$> hit (λ r, f r = n) l) ↔ fk = Some n) as Hgone.
  { intros A f l fk Hin. destruct fk as [k|]; [|done]. simpl. split.
    - intros (r & -> & [E _]%list_elem_of_filter)%list_elem_of_fmap. by rewrite E.
    - intros [= ->]. apply list_elem_of_fmap in Hin as (r & -> & Hr).
      apply list_elem_of_fmap. exists r. split; [done|]. by apply list_elem_of_filter. }
  split; [|split]; intros Hin; eexists.
  - split.
    + change (delete_child id) with (delete_one child id).
      rewrite (delete_one_run child id n db Hid), (bool_decide_eq_true_2 _ Hin).
      reflexivity.
    + cbn. apply list_filter_iff. intros e.
      rewrite ids_of in Hin. by rewrite (Hgone _ Child.id _ _ Hin).
  - split.
    + change (delete_parent id) with (delete_one parent id).
      rewrite (delete_one_run parent id n db Hid), (bool_decide_eq_true_2 _ Hin).
      reflexivity.
    + cbn. apply list_filter_iff. intros e.
      rewrite ids_of in Hin. by rewrite (Hgone _ Parent.id _ _ Hin).
  - split.
    + change (delete_daycare id) with (delete_one daycare id).
      rewrite (delete_one_run daycare id n db Hid), (bool_decide_eq_true_2 _ Hin).
      reflexivity.
    + intros c e Hc Hd. cbn. intros [He _]%list_elem_of_filter E. apply He.
      rewrite E. simpl. apply list_elem_of_fmap.
      eexists (null_classroom _ c). split.
      { unfold null_classroom. by destruct (decide _). }
      apply list_elem_of_filter. split.
      * rewrite ids_of in Hin. apply (Hgone _ Daycare.id _ _ Hin).
        rewrite <- Hd. unfold null_classroom. by destruct (decide _).
      * by apply list_elem_of_fmap_2.
Qed.

Lemma delete_cascades_to_enrollments_witness :
  (∃ db',
     delete_child "2" seed
     = Some (db', inr (Response 200 (Deleted "Child deleted successfully")))
     ∧ enrollments db'
       = filter (λ e, Enrollment.child_id e ≠ Some 2) (enrollments seed))
  ∧ (∃ db',
       delete_parent "2" seed
       = Some (db', inr (Response 200 (Deleted "Parent deleted successfully")))
       ∧ enrollments db'
         = filter (λ e, Enrollment.parent_id e ≠ Some 2) (enrollments seed)).
Proof.
  destruct (delete_cascades_to_enrollments "2" 2 seed eq_refl) as (Hc & Hp & _).
  split; [apply Hc | apply Hp]; decide_closed.
Defined.

(** X4: a delete by an id that reads as an integer leaves alone every
    table that no foreign key leads to from the table it addresses:
    the parents and the daycares unless they are addressed themselves,
    the classrooms unless a daycare or a classroom is deleted, the
    children when a parent or an enrollment is deleted, the
    enrollments when a classroom is deleted. *)
Theorem delete_leaves_unrelated_tables
    (t : table) (id : string) (n : Z) (db db' : database) (x : error + response) :
  reads_as t id n → delete_one t id db = Some (db', x) →
  (t ≠ daycare → daycares db' = daycares db)
  ∧ (t ≠ parent → parents db' = parents db)
  ∧ (t ≠ daycare → t ≠ classroom → classrooms db' = classrooms db)
  ∧ (t = parent ∨ t = enrollment → children db' = children db)
  ∧ (t = classroom → enrollments db' = enrollments db).
Proof.
  intros Hid. rewrite (delete_one_run t id n db Hid). intros [= <- _].
  destruct t; cbn; repeat split; try done; intros; by intuition.
Qed.

Lemma delete_leaves_unrelated_tables_witness :
  ∃ db', 
    delete_one classroom "2" seed
    = Some (db', inr (Response 200 (Deleted (deleted_message classroom))))
    ∧ daycares db' = daycares seed ∧ parents db' = parents seed
    ∧ enrollments db' = enrollments seed.
Proof.
  eexists. split; [reflexivity|].
  destruct (delete_leaves_unrelated_tables classroom "2" 2 seed _ _ eq_refl eq_refl)
    as (Hd & Hp & _ & _ & He).
  split; [by apply Hd|]. split; [by apply Hp|]. by apply He.
Defined.

(** ** What an update can do, whatever the request *)

Lemma bound_writes {A} (t : table) (db : database) (read : string → parsed A)
    (p : param) (k : option A → reply) :
  (∀ a, writes_row t db (k a)) → writes_row t db (bound read p db k).
Proof.
  intros Hk. destruct p as [s|]; cbn; [|apply Hk].
  destruct (read s); cbn; [apply Hk|done..].
Qed.

Lemma assigned_writes (t : table) (db : database) (n : nat) (p : param) (m : bool)
    (k : option string → reply) :
  (∀ a, writes_row t db (k a)) → writes_row t db (assigned n p m db k).
Proof.
  intros Hk. destruct p as [s|]; cbn; [|apply Hk].
  destruct (Pg.varchar n s); cbn; [apply Hk|by destruct m|done].
Qed.

Lemma not_null_writes {A} (t : table) (db : database) (v : option A) (k : A → reply) :
  (∀ a, writes_row t db (k a)) → writes_row t db (not_null v db k).
Proof. intros Hk. destruct v; cbn; [apply Hk|done]. Qed.

Lemma references_writes (t : table) (db : database) (fk : option Z) (l : list Z)
    (k : reply) :
  (points_into fk l = true → writes_row t db k) →
  writes_row t db (references fk l db k).
Proof.
  intros Hk. rewrite references_points_into.
  destruct (points_into fk l); [by apply Hk|done].
Qed.

Lemma assigned_literal_writes (t : table) (db : database) (l : literal) (m : bool)
    (k : option Z → reply) :
  (∀ a, writes_row t db (k a)) → writes_row t db (assigned_literal l m db k).
Proof.
  intros Hk. destruct l as [n| |]; cbn; [|done|apply Hk].
  destruct (Pg.in_int4 n); [apply Hk|by destruct m].
Qed.

Lemma compared_literal_writes (t : table) (db : database) (l : literal)
    (k : option Z → reply) :
  (∀ a, writes_row t db (k a)) → writes_row t db (compared_literal l db k).
Proof. intros Hk. destruct l; cbn; [apply Hk|done|apply Hk]. Qed.

Lemma any_matching_some {A} (f : A → Z) (n : option Z) (l : list A) :
  any (matching f n l) = true →
  ∃ k x rest, n = Some k ∧ k ∈ f <$> l ∧ matching f n l = x :: rest ∧ f x = k.
Proof.
  destruct (matching f n l) as [|x rest] eqn:E; [done|]. intros _.
  assert (x ∈ matching f n l) as Hx by (rewrite E; constructor).
  apply list_elem_of_filter in Hx as [Hn Hx].
  exists (f x), x, rest. split; [done|]. split; [|done]. by apply list_elem_of_fmap_2.
Qed.

(** The rows an [UPDATE] writes: one row value, stored under the id
    the statement compares with. *)
Lemma rewritten_writes {A} (t : table) (db : database) (f : A → Z) (g : A → row)
    (n : option Z) (new : A → A) (l : list A) (db' : database) :
  any (matching f n l) = true →
  (∀ x, f (new x) = f x) → (∀ x, row_id (g x) = f x) → (∀ x, in_table t (g x)) →
  f <$> l = ids t db →
  (∀ x, foreign_keys_hold (g (new x)) db = true) →
  (∀ k x, n = Some k → f x = k → store t k (g (new x)) db = db') →
  writes_row t db
    (Some (db', inr (Result (g ∘ new <$> matching f n l) (length (matching f n l))))).
Proof.
  intros (k & x & rest & -> & Hk & E & Hx)%any_matching_some Hid Hg Ht Hids Hfk Hst.
  right. exists (g (new x)). rewrite Hg, Hid, Hx.
  split; [done|]. split; [by rewrite <- Hids|]. split; [done|]. split.
  - symmetry. by apply Hst.
  - rewrite E. split; done.
Qed.

Lemma pool_query_update_daycare (name address phone email id : param) (db : database) :
  writes_row daycare db (pool_query (UpdateDaycare name address phone email id) db).
Proof.
  unfold pool_query. apply bound_writes. intros n.
  do 4 (apply assigned_writes; intros ?).
  destruct (any _) eqn:E; [|by left].
  apply not_null_writes. intros a3.
  apply (rewritten_writes daycare db Daycare.id OfDaycare n _ _ _ E); try done.
  - symmetry. apply (ids_of daycare).
  - intros k x -> Hx. unfold store. f_equal. symmetry.
    apply rewrite_rows_ext. intros y Hy. congruence.
Qed.

Lemma pool_query_update_parent (name phone email id : param) (db : database) :
  writes_row parent db (pool_query (UpdateParent name phone email id) db).
Proof.
  unfold pool_query. apply bound_writes. intros n.
  do 3 (apply assigned_writes; intros ?).
  destruct (any _) eqn:E; [|by left].
  apply not_null_writes. intros a3.
  apply (rewritten_writes parent db Parent.id OfParent n _ _ _ E); try done.
  - symmetry. apply (ids_of parent).
  - intros k x -> Hx. unfold store. f_equal. symmetry.
    apply rewrite_rows_ext. intros y Hy. congruence.
Qed.

Lemma pool_query_update_classroom (name daycare_id id : param) (db : database) :
  writes_row classroom db (pool_query (UpdateClassroom name daycare_id id) db).
Proof.
  unfold pool_query. apply bound_writes. intros fk. apply bound_writes. intros n.
  apply assigned_writes; intros ?.
  destruct (any _) eqn:E; [|by left].
  apply not_null_writes. intros a3.
  apply references_writes. intros Hfk.
  apply (rewritten_writes classroom db Classroom.id OfClassroom n _ _ _ E); try done.
  - symmetry. apply (ids_of classroom).
  - intros x. unfold foreign_keys_hold. cbn [Classroom.daycare_id]. by rewrite ids_of.
  - intros k x -> Hx. unfold store. f_equal. symmetry.
    apply rewrite_rows_ext. intros y Hy. congruence.
Qed.

Lemma pool_query_update_child (name date_of_birth classroom_id daycare_id id : param)
    (db : database) :
  writes_row child db
    (pool_query (UpdateChild name date_of_birth classroom_id daycare_id id) db).
Proof.
  unfold pool_query. do 4 (apply bound_writes; intros ?).
  apply assigned_writes; intros ?.
  destruct (any _) eqn:E; [|by left].
  do 2 (apply not_null_writes; intros ?).
  apply references_writes. intros Hfk1. apply references_writes. intros Hfk2.
  apply (rewritten_writes child db Child.id OfChild _ _ _ _ E); try done.
  - symmetry. apply (ids_of child).
  - intros x. unfold foreign_keys_hold. cbn [Child.classroom_id Child.daycare_id].
    rewrite !ids_of. by rewrite Hfk1, Hfk2.
  - intros k x -> Hx. unfold store. f_equal. symmetry.
    apply rewrite_rows_ext. intros y Hy. congruence.
Qed.

Lemma parse_update_shape (c p i : string) (q : simple) :
  parse_simple (update_enrollment_text c p i) = Some q →
  ∃ lc lp li, q = UpdateEnrollment lc lp li.
Proof.
  unfold parse_simple, update_enrollment_text.
  set (tail := c ++ _).
  assert (strip_prefix "SELECT * FROM public.enrollment WHERE public.enrollment.id="
            ("UPDATE public.enrollment" ++ newline ++ "       SET child_id = " ++ tail) = None)
    as -> by reflexivity.
  assert (strip_prefix "DELETE FROM public.enrollment WHERE public.enrollment.id="
            ("UPDATE public.enrollment" ++ newline ++ "       SET child_id = " ++ tail) = None)
    as -> by reflexivity.
  destruct (strip_prefix _ _) as [s|]; [|done]. cbn [mbind option_bind].
  destruct (split_first ", parent_id = " s) as [[c' s1]|]; [|done]. cbn [mbind option_bind].
  destruct (split_first _ s1) as [[p' s2]|]; [|done]. cbn [mbind option_bind].
  destruct (split_first _ s2) as [[i' s3]|]; [|done]. cbn [mbind option_bind].
  destruct (String.eqb s3 ""); [|done].
  destruct (read_literal c') as [lc|]; [|done]. cbn [mbind option_bind].
  destruct (read_literal p') as [lp|]; [|done]. cbn [mbind option_bind].
  destruct (read_literal i') as [li|]; [|done]. cbn [mbind option_bind].
  intros [= <-]. eauto.
Qed.

Lemma simple_query_update_enrollment (c p i : string) (db : database) :
  match simple_query (update_enrollment_text c p i) db with
  | None => True
  | Some (db', inl _) => db' = db
  | Some (db', inr rs) =>
      ∃ res, rs = [res] ∧ writes_row enrollment db (Some (db', inr res))
  end.
Proof.
  unfold simple_query.
  destruct (parse_simple _) as [q|] eqn:E; [|done].
  apply parse_update_shape in E as (lc & lp & li & ->). cbn [mbind option_bind].
  match goal with |- context [single ?r] => assert (writes_row enrollment db r) as H end.
  { apply compared_literal_writes. intros n.
    do 2 (apply assigned_literal_writes; intros ?).
    destruct (any _) eqn:E; [|by left].
    apply references_writes. intros Hfk1. apply references_writes. intros Hfk2.
    apply (rewritten_writes enrollment db Enrollment.id OfEnrollment _ _ _ _ E); try done.
    - symmetry. apply (ids_of enrollment).
    - intros x. unfold foreign_keys_hold.
      cbn [Enrollment.child_id Enrollment.parent_id].
      rewrite !ids_of. by rewrite Hfk1, Hfk2.
    - intros k x -> Hx. unfold store. f_equal. symmetry.
      apply rewrite_rows_ext. intros y Hy. congruence. }
  destruct (compared_literal _ _ _) as [[db' [e|res]]|]; cbn; eauto.
Qed.

(** What an update route can have done when it has answered.  Either
    the database is as it was and the answer is 400 (a required field
    is not truthy), 404, 500, or 200 without a row; or one row [r] of
    the table has been stored under the id of a stored row, its
    foreign keys pointing at stored rows, and the answer is 200 with
    [r]. *)
Lemma update_one_outcome (t : table) (id : string) (body : JS.object)
    (db db' : database) (x : error + response) :
  update_one t id body db = Some (db', x) →
  ∃ res, x = inr res
    ∧ ((db' = db
        ∧ ((all_truthy t body = false ∧ ∃ m, res = Response 400 (BadRequest m))
           ∨ res = Response 404 (NotFound (missing_message t))
           ∨ (∃ e, res = Response 500 (Failure e))
           ∨ res = Response 200 (Updated (updated_message t) None)))
       ∨ ∃ r, in_table t r ∧ row_id r ∈ ids t db ∧ foreign_keys_hold r db = true
              ∧ db' = store t (row_id r) r db
              ∧ res = Response 200 (Updated (updated_message t) (Some r))).
Proof.
  assert (∀ q : M result, writes_row t db (q db) →
            try_catch (bind q (updated (missing_message t) (updated_message t)))
              (λ err, json 500 (Failure err)) db = Some (db', x) →
            ∃ res, x = inr res
              ∧ ((db' = db
                  ∧ ((all_truthy t body = false ∧ ∃ m, res = Response 400 (BadRequest m))
                     ∨ res = Response 404 (NotFound (missing_message t))
                     ∨ (∃ e, res = Response 500 (Failure e))
                     ∨ res = Response 200 (Updated (updated_message t) None)))
                 ∨ ∃ r, in_table t r ∧ row_id r ∈ ids t db
                        ∧ foreign_keys_hold r db = true
                        ∧ db' = store t (row_id r) r db
                        ∧ res = Response 200 (Updated (updated_message t) (Some r))))
    as Htail.
  { intros q Hq. unfold try_catch, bind.
    destruct (q db) as [[db1 [e|res]]|]; cbn in *; [| |done].
    - intros [= <- <-]. eexists. split; [done|]. left. split; [done|].
      right. right. left. by eexists.
    - unfold updated. destruct Hq as [(-> & _ & ->)|(r & Ht & Hin & Hfk & -> & Hr & Hn)].
      + cbn. intros [= <- <-]. eexists. split; [done|]. left. split; [done|].
        right. by left.
      + apply Nat.eqb_neq in Hn. rewrite Hn, Hr. intros [= <- <-].
        eexists. split; [done|]. right. by exists r. }
  destruct t; cbn [update_one];
    unfold update_daycare, update_classroom, update_parent, update_child,
      update_enrollment.
  1-4: destruct (_ || _)%bool eqn:G;
    [ intros [= <- <-]; eexists; split; [done|]; left; split; [done|]; left;
      split; [|by eexists];
      unfold all_truthy; cbn [required forallb]; unfold JS.not in G;
      repeat destruct (JS.truthy _); done |].
  - exact (Htail _ (pool_query_update_daycare _ _ _ _ _ db)).
  - exact (Htail _ (pool_query_update_classroom _ _ _ db)).
  - exact (Htail _ (pool_query_update_parent _ _ _ _ db)).
  - exact (Htail _ (pool_query_update_child _ _ _ _ _ db)).
  - clear Htail. destruct (_ || _)%bool eqn:G.
    { intros [= <- <-]. eexists. split; [done|]. left. split; [done|]. left.
      split; [|by eexists].
      unfold all_truthy. cbn [required forallb]. unfold JS.not in G.
      repeat destruct (JS.truthy _); done. }
    unfold try_catch, bind.
    pose proof (simple_query_update_enrollment
                  (JS.toString (JS.get body "child_id"))
                  (JS.toString (JS.get body "parent_id")) id db) as Hq.
    destruct (simple_query _ db) as [[db1 [e|rs]]|]; [| |done].
    + subst db1. intros [= <- <-]. eexists. split; [done|]. left. split; [done|].
      right. right. left. by eexists.
    + destruct Hq as (res & -> & Hq). cbn.
      destruct Hq as [(-> & Hr & _)|(r & Ht & Hin & Hfk & -> & Hr & Hn)];
        rewrite Hr; intros [= <- <-]; eexists; (split; [done|]).
      * left. split; [done|]. by do 3 right.
      * right. by exists r.
Qed.

(** ** The keys of the schema *)
















(** What the middleware leaves of the state that [next()] produced. *)
Lemma serve_dispatch (req : request) (elapsed : N) (st st' : app_state) (r : response) :
  serve req elapsed st = Some (st', r) →
  ∃ st1 route,
    dispatch req st = Some (st1, (r, route)) ∧ db st' = db st1
    ∧ registry st'
      = if decide (req_path req ∈ skipPaths) then registry st1
        else observe
               (Labels (method_name (req_method req))
                  (or_else (default "" route) (or_else (req_path req) "unknown"))
                  (status r))
               (Z.of_N elapsed # 1000000000)%Q (registry st1).
Proof.
  unfold serve, metricsMiddleware.
  destruct (dispatch req st) as [[st1 [r1 route]]|]; [|by destruct (decide _)].
  destruct (decide _); cbn; intros [= <- <-]; by exists st1, route.
Qed.



(** ** Writes that fail, writes that succeed *)








Lemma rewrite_rows_twice {A} (f : A → Z) (n : Z) (d : A) (l : list A) :
  f d = n →
  rewrite_rows f (Some n) (λ _, d) (rewrite_rows f (Some n) (λ _, d) l)
  = rewrite_rows f (Some n) (λ _, d) l.
Proof.
  intros Hd. unfold rewrite_rows. rewrite <- list_fmap_compose.
  apply list_fmap_ext. intros _ x _. cbn.
  destruct (decide (Some (f x) = Some n)) as [E|E].
  - rewrite decide_True; [done|by rewrite Hd].
  - by rewrite decide_False.
Qed.

Lemma store_other (t t' : table) (n : Z) (r : row) (db : database) :
  t' ≠ t → rows_of t' (store t n r db) = rows_of t' db.
Proof. intros Ht. by destruct t, t', r. Qed.

Lemma store_ids_all (t t' : table) (r : row) (db : database) :
  in_table t r → ids t' (store t (row_id r) r db) = ids t' db.
Proof.
  intros Ht. destruct (decide (t' = t)) as [->|Hne]; [by apply store_ids|].
  unfold ids. by rewrite store_other.
Qed.



Lemma store_twice (t : table) (r : row) (db : database) :
  in_table t r →
  store t (row_id r) r (store t (row_id r) r db) = store t (row_id r) r db.
Proof.
  intros Ht.
  destruct t, r as [d|d|d|d|d|]; try done;
    cbn [store row_id set_daycares set_classrooms set_parents set_children
         set_enrollments daycares classrooms parents children enrollments];
    by rewrite rewrite_rows_twice.
Qed.

Lemma foreign_keys_hold_ids (r : row) (db1 db2 : database) :
  (∀ t, ids t db1 = ids t db2) →
  foreign_keys_hold r db1 = foreign_keys_hold r db2.
Proof. intros H. unfold foreign_keys_hold. by rewrite !H. Qed.



(** X8: an update can be repeated.  With the required fields truthy
    and taken by the columns, and an id that reads as an integer, the
    same request sent again is answered as the first time and leaves
    the database as the first one left it. *)
Theorem update_is_idempotent
    (t : table) (id : string) (n : Z) (body : JS.object) (db : database) (r : row) :
  reads_as t id n → all_truthy t body = true → new_row t n body = Some r →
  ∃ db' res,
    update_one t id body db = Some (db', inr res)
    ∧ update_one t id body db' = Some (db', inr res).
Proof.
  intros Hid Ht Hr. destruct (new_row_shape t n body r Hr) as [Hin <-].
  rewrite (update_one_run t id _ body db r Hid Ht Hr).
  destruct (bool_decide (row_id r ∈ ids t db)) eqn:E.
  - destruct (foreign_keys_hold r db) eqn:Hfk.
    + eexists _, _. split; [done|].
      rewrite (update_one_run t id _ body _ r Hid Ht Hr).
      rewrite (store_ids_all t t r db Hin), E.
      rewrite (foreign_keys_hold_ids r _ db) by (intros; by apply store_ids_all).
      by rewrite Hfk, store_twice.
    + eexists _, _. split; [done|].
      by rewrite (update_one_run t id _ body db r Hid Ht Hr), E, Hfk.
  - eexists _, _. split; [done|].
    by rewrite (update_one_run t id _ body db r Hid Ht Hr), E.
Qed.

Lemma update_is_idempotent_witness :
  ∃ db' res,
    update_one enrollment "5" {[ "child_id" := JS.Num 5; "parent_id" := JS.Str "3" ]} seed
    = Some (db', inr res)
    ∧ update_one enrollment "5" {[ "child_id" := JS.Num 5; "parent_id" := JS.Str "3" ]} db'
      = Some (db', inr res).
Proof.
  apply (update_is_idempotent enrollment "5" 5 _ seed
           (OfEnrollment (Enrollment.Row 5 (Some 5) (Some 3)))); reflexivity.
Defined.

(** X9: an id that is no integer is an error of the server, not a
    missing row.  For daycares, classrooms, children and parents, a
    get or a delete whose path parameter the INT column refuses (no
    digit in it, or a decimal outside 32 bits) answers 500 with the
    server's complaint and leaves the database as it was. *)
Theorem malformed_id_answers_500 (t : table) (id : string) (db : database) :
  t ≠ enrollment → Pg.int4in id = Rejected →
  ∃ e,
    get_one t id db = Some (db, inr (Response 500 (Failure e)))
    ∧ delete_one t id db = Some (db, inr (Response 500 (Failure e))).
Proof.
  intros Ht Hid. exists InvalidTextRepresentation.
  assert (get_one t id = get_by_id t (missing_message t) id) as -> by (by destruct t).
  assert (delete_one t id = delete_by_id t (missing_message t) (deleted_message t) id)
    as -> by (by destruct t).
  unfold get_by_id, delete_by_id, try_catch, bind, pool_query, bound, prepareValue.
  cbn [JS.toString]. by rewrite Hid.
Qed.

Lemma malformed_id_answers_500_witness :
  ∃ e,
    get_one child "first" seed = Some (seed, inr (Response 500 (Failure e)))
    ∧ delete_one child "first" seed = Some (seed, inr (Response 500 (Failure e))).
Proof. apply (malformed_id_answers_500 child "first" seed); [done|reflexivity]. Defined.

(** ** What the middleware records *)

Lemma find_route_path (rs : list (method * target)) (req : request)
    (path : string) (h : action) :
  Forall (λ mt, route_path (snd mt) ≠ "") rs →
  find_route rs req = Some (path, h) → path ≠ "".
Proof.
  induction rs as [|[m t] rs IH]; intros Hall; [done|].
  apply Forall_cons in Hall as [Ht Hall]. cbn [find_route].
  destruct (decide (m = req_method req)); [|by apply IH].
  destruct t as [p h0|p h0]; cbn [snd] in Ht.
  - destruct (matches_path p (req_path req)); [|by apply IH]. by intros [= <- _].
  - destruct (matches_id p (req_path req)) as [id|]; [|by apply IH].
    by intros [= <- _].
Qed.

Lemma routes_have_paths : Forall (λ mt, route_path (snd mt) ≠ "") routes.
Proof.
  unfold routes, setupMetrics. apply Forall_app. split.
  all: repeat (constructor; [intros H; discriminate H|]).
  all: constructor.
Qed.

(** What [next()] leads to: the handler leaves the recorded
    observations alone, and [req.route] is set exactly when a route
    takes the request. *)
Lemma dispatch_route (req : request) (st st1 : app_state) (r : response)
    (route : option string) :
  dispatch req st = Some (st1, (r, route)) →
  registry st1 = registry st
  ∧ or_else (default "" route) (or_else (req_path req) "unknown") = route_of req.
Proof.
  unfold dispatch, route_of.
  destruct (find_route routes req) as [[path h]|] eqn:E.
  - destruct (h st) as [[st2 r2]|] eqn:Eh; cbn; [|done]. intros [= <- _ <-]. split.
    + eapply find_route_keeps_registry; [apply routes_keep_registry_all|done..].
    + cbn. unfold or_else at 1.
      pose proof (find_route_path _ _ _ _ routes_have_paths E) as Hp.
      by apply String.eqb_neq in Hp as ->.
  - destruct (under_api _); [done|]. by intros [= <- _ <-].
Qed.

(** X10: the middleware records one observation for every answered
    request whose path is not on the skip list, and none for the
    others.  The observation is labelled with the request method, the
    path of the route that took the request (the request path itself
    when no route did) and the status of the answer, and holds the
    elapsed time in seconds; what was recorded before is kept. *)
Theorem request_observed_once
    (req : request) (elapsed : N) (st st' : app_state) (r : response) :
  serve req elapsed st = Some (st', r) →
  registry st'
  = if decide (req_path req ∈ skipPaths) then registry st
    else (registry st
          ++ [(Labels (method_name (req_method req)) (route_of req) (status r),
               (Z.of_N elapsed # 1000000000)%Q)])%list.
Proof.
  intros (st1 & route & Hd & _ & ->)%serve_dispatch.
  apply dispatch_route in Hd as [-> ->]. reflexivity.
Qed.

Lemma request_observed_once_witness :
  ∃ st' r,
    serve (Request PUT "/update_child/5" ∅) 2500000 (AppState seed []) = Some (st', r)
    ∧ registry st' = [(Labels "PUT" "/update_child/:id" 400, (2500000 # 1000000000)%Q)].
Proof.
  eexists _, _. split; [reflexivity|].
  exact (request_observed_once (Request PUT "/update_child/5" ∅) 2500000
           (AppState seed []) _ _ eq_refl).
Defined.

Lemma scrape_run (elapsed : N) (st : app_state) :
  serve (Request GET "/metrics" ∅) elapsed st
  = Some (st, Response 200 (Metrics (exposition httpDuration (registry st)))).
Proof. reflexivity. Qed.

Lemma exposition_count (l : labels) (seconds : Q) (reg : observations) :
  ∃ count,
    (0 < count)%nat
    ∧ Bucket l None count ∈ exposition httpDuration (observe l seconds reg)
    ∧ Count l count ∈ exposition httpDuration (observe l seconds reg).
Proof.
  exists (length (values_of l (observe l seconds reg))). split; [|split].
  - unfold values_of, observe. rewrite filter_app, fmap_app, List.length_app.
    rewrite filter_cons_True by done. cbn. lia.
  - apply list_elem_of_bind. exists l. split.
    + apply elem_of_app. right. constructor.
    + apply elem_of_remove_dups. unfold observe. rewrite fmap_app.
      apply elem_of_app. right. cbn. constructor.
  - apply list_elem_of_bind. exists l. split.
    + apply elem_of_app. right. do 2 right. constructor.
    + apply elem_of_remove_dups. unfold observe. rewrite fmap_app.
      apply elem_of_app. right. cbn. constructor.
Qed.

(** X11: an answered request shows in the next scrape.  After a
    request whose path is not on the skip list has been answered,
    [GET /metrics] answers 200 and its text holds, for the time series
    labelled with the method, the route and the status of that
    request, a [+Inf] bucket and a count that are the same and at
    least 1; the scrape itself changes nothing. *)
Theorem next_scrape_shows_request
    (req : request) (elapsed later : N) (st st' : app_state) (r : response) :
  serve req elapsed st = Some (st', r) → req_path req ∉ skipPaths →
  ∃ samples count,
    serve (Request GET "/metrics" ∅) later st'
    = Some (st', Response 200 (Metrics samples))
    ∧ (0 < count)%nat
    ∧ Bucket (Labels (method_name (req_method req)) (route_of req) (status r))
        None count ∈ samples
    ∧ Count (Labels (method_name (req_method req)) (route_of req) (status r))
        count ∈ samples.
Proof.
  intros (st1 & route & Hd & _ & H)%serve_dispatch Hp.
  apply dispatch_route in Hd as [E1 E2].
  rewrite decide_False, E1, E2 in H by done.
  destruct (exposition_count
              (Labels (method_name (req_method req)) (route_of req) (status r))
              (Z.of_N elapsed # 1000000000)%Q (registry st))
    as (count & Hc & Hb & Hn).
  exists (exposition httpDuration (registry st')), count.
  split; [apply scrape_run|]. rewrite H. by repeat split.
Qed.

Lemma next_scrape_shows_request_witness :
  ∃ st' samples count,
    serve (Request GET "/get_parent/9" ∅) 700000 (AppState seed [])
    = Some (st', Response 404 (NotFound "Parent not found"))
    ∧ serve (Request GET "/metrics" ∅) 900000 st'
      = Some (st', Response 200 (Metrics samples))
    ∧ (0 < count)%nat
    ∧ Count (Labels "GET" "/get_parent/:id" 404) count ∈ samples.
Proof.
  eexists. 
  assert (serve (Request GET "/get_parent/9" ∅) 700000 (AppState seed [])
          = Some (AppState seed [(Labels "GET" "/get_parent/:id" 404,
                                  (700000 # 1000000000)%Q)],
                  Response 404 (NotFound "Parent not found"))) as H by reflexivity.
  destruct (next_scrape_shows_request _ 700000 900000 _ _ _ H)
    as (samples & count & Hs & Hc & _ & Hn); [decide_closed|].
  exists samples, count. split; [exact H|]. split; [exact Hs|]. split; [exact Hc|exact Hn].
Defined.

(** ** Requests no route takes *)

Lemma find_route_no_method (rs : list (method * target)) (req : request) :
  Forall (λ mt, fst mt ≠ req_method req) rs → find_route rs req = None.
Proof.
  induction rs as [|[m t] rs IH]; intros Hall; [done|].
  apply Forall_cons in Hall as [Hm Hall]. cbn [find_route].
  rewrite decide_False by done. by apply IH.
Qed.

(** X12: the application has no route that creates a row.  Every
    [POST] request outside [/api] is answered 404 by the framework and
    leaves the database as it was; unless its path is on the skip
    list, it is recorded under its own path. *)
Theorem post_requests_are_not_routed
    (path : string) (body : JS.object) (elapsed : N) (st : app_state) :
  under_api path = false →
  ∃ reg,
    serve (Request POST path body) elapsed st
    = Some (AppState (db st) reg, Response 404 CannotRoute)
    ∧ reg = if decide (path ∈ skipPaths) then registry st
            else (registry st
                  ++ [(Labels "POST" (or_else path "unknown") 404,
                       (Z.of_N elapsed # 1000000000)%Q)])%list.
Proof.
  intros Hp.
  assert (find_route routes (Request POST path body) = None) as E.
  { apply find_route_no_method. unfold routes, setupMetrics. apply Forall_app. split.
    all: repeat (constructor; [done|]).
    all: constructor. }
  unfold serve, metricsMiddleware, dispatch. rewrite E. cbn [req_path]. rewrite Hp.
  destruct (decide (path ∈ skipPaths)); cbn; eexists; (split; [|done]);
    [by destruct st|done].
Qed.

Lemma post_requests_are_not_routed_witness :
  ∃ reg,
    serve (Request POST "/get_daycares" {[ "name" := JS.Str "Tiny Tots" ]}) 1000
      (AppState seed [])
    = Some (AppState seed reg, Response 404 CannotRoute)
    ∧ reg = [(Labels "POST" "/get_daycares" 404, (1000 # 1000000000)%Q)].
Proof.
  exact (post_requests_are_not_routed "/get_daycares" {[ "name" := JS.Str "Tiny Tots" ]}
           1000 (AppState seed []) eq_refl).
Defined.

(** ** The routes that take an id *)

Lemma find_route_skip (m : method) (t : target) (rs : list (method * target))
    (req : request) :
  m ≠ req_method req
  ∨ match t with
    | Fixed p _ => matches_path p (req_path req) = false
    | WithId p _ => matches_id p (req_path req) = None
    end →
  find_route ((m, t) :: rs) req = find_route rs req.
Proof.
  intros [Hm|Ht]; cbn [find_route].
  - by rewrite decide_False.
  - destruct (decide _); [|done]. destruct t; by rewrite Ht.
Qed.

Lemma matches_id_app (prefix id : string) :
  segment id = true → matches_id prefix (prefix ++ id) = Some id.
Proof.
  intros Hs. unfold matches_id.
  rewrite substring_app_l, String.eqb_refl, length_app.
  replace (String.length prefix + String.length id - String.length prefix)%nat
    with (String.length id) by lia.
  by rewrite substring_app_r, Hs.
Qed.

Lemma find_route_hit (m : method) (prefix id : string)
    (h : string → JS.object → action) (rs : list (method * target)) (body : JS.object) :
  segment id = true →
  find_route ((m, WithId prefix h) :: rs) (Request m (prefix ++ id) body)
  = Some (prefix ++ ":id", h id body).
Proof.
  intros Hs. cbn [find_route req_method req_path req_body].
  rewrite decide_True by done. by rewrite (matches_id_app prefix id Hs).
Qed.

Ltac skip_routes :=
  repeat (rewrite find_route_skip by (first [left; discriminate | right; reflexivity])).

(** X13: each route that takes an id reaches its handler.  For every
    table and every id that is one path segment (not empty, no
    slash), [GET /get_<table>/<id>], [DELETE /delete_<table>/<id>] and
    [PUT /update_<table>/<id>] are taken by the route of that name and
    run the get, delete and update handler of the table on that id
    (and, for the update, on the body of the request). *)
Theorem id_routes_reach_their_handlers (t : table) (id : string) (body : JS.object) :
  segment id = true →
  find_route routes (Request GET ("/get_" ++ entity t ++ "/" ++ id) body)
  = Some ("/get_" ++ entity t ++ "/:id", on_db (get_one t id))
  ∧ find_route routes (Request DELETE ("/delete_" ++ entity t ++ "/" ++ id) body)
    = Some ("/delete_" ++ entity t ++ "/:id", on_db (delete_one t id))
  ∧ find_route routes (Request PUT ("/update_" ++ entity t ++ "/" ++ id) body)
    = Some ("/update_" ++ entity t ++ "/:id", on_db (update_one t id body)).
Proof.
  intros Hs. unfold routes, setupMetrics. cbn [app].
  destruct t; cbn [entity]; (split; [|split]).
  all: skip_routes.
  - exact (find_route_hit GET "/get_daycare/" id _ _ body Hs).
  - exact (find_route_hit DELETE "/delete_daycare/" id _ _ body Hs).
  - exact (find_route_hit PUT "/update_daycare/" id _ _ body Hs).
  - exact (find_route_hit GET "/get_classroom/" id _ _ body Hs).
  - exact (find_route_hit DELETE "/delete_classroom/" id _ _ body Hs).
  - exact (find_route_hit PUT "/update_classroom/" id _ _ body Hs).
  - exact (find_route_hit GET "/get_parent/" id _ _ body Hs).
  - exact (find_route_hit DELETE "/delete_parent/" id _ _ body Hs).
  - exact (find_route_hit PUT "/update_parent/" id _ _ body Hs).
  - exact (find_route_hit GET "/get_child/" id _ _ body Hs).
  - exact (find_route_hit DELETE "/delete_child/" id _ _ body Hs).
  - exact (find_route_hit PUT "/update_child/" id _ _ body Hs).
  - exact (find_route_hit GET "/get_enrollment/" id _ _ body Hs).
  - exact (find_route_hit DELETE "/delete_enrollment/" id _ _ body Hs).
  - exact (find_route_hit PUT "/update_enrollment/" id _ _ body Hs).
Qed.

Lemma id_routes_reach_their_handlers_witness :
  find_route routes (Request GET ("/get_" ++ entity child ++ "/" ++ "12") ∅)
  = Some ("/get_" ++ entity child ++ "/:id", on_db (get_one child "12"))
  ∧ find_route routes (Request DELETE ("/delete_" ++ entity child ++ "/" ++ "12") ∅)
    = Some ("/delete_" ++ entity child ++ "/:id", on_db (delete_one child "12"))
  ∧ find_route routes (Request PUT ("/update_" ++ entity child ++ "/" ++ "12") ∅)
    = Some ("/update_" ++ entity child ++ "/:id", on_db (update_one child "12" ∅)).
Proof. exact (id_routes_reach_their_handlers child "12" ∅ eq_refl). Defined.

(** ** The presence check, read backwards *)

Lemma forallb_false {A} (f : A → bool) (l : list A) :
  forallb f l = false → ∃ x, x ∈ l ∧ f x = false.
Proof.
  induction l as [|a l IH]; [done|]. cbn. destruct (f a) eqn:E.
  - intros (x & Hx & Hf)%IH. exists x. split; [by constructor|done].
  - intros _. exists a. split; [constructor|done].
Qed.

(** X14: an update route answers 400 only for a field that is
    missing or falsy.  Whatever the id and the state, a 400 from an
    update route means that one of the fields the table requires is
    absent from the body or not truthy; and then nothing has been
    changed. *)
Theorem bad_request_only_for_falsy_fields
    (t : table) (id : string) (body : JS.object) (db db' : database) (res : response) :
  update_one t id body db = Some (db', inr res) → status res = 400 →
  (∃ k, k ∈ required t ∧ JS.truthy (JS.get body k) = false) ∧ db' = db.
Proof.
  intros H Hs. apply update_one_outcome in H
    as (res' & [= <-]
        & [[-> [[Hf _]|[->|[[e ->]| ->]]]]|(r & _ & _ & _ & _ & ->)]); try done.
  split; [|done]. by apply forallb_false in Hf.
Qed.

Lemma bad_request_only_for_falsy_fields_witness :
  update_one parent "1" {[ "name" := JS.Str "Alice"; "phone" := JS.Str "" ]} seed
  = Some (seed, inr (Response 400 (BadRequest "All fields are required")))
  ∧ ∃ k, k ∈ required parent
         ∧ JS.truthy (JS.get {[ "name" := JS.Str "Alice"; "phone" := JS.Str "" ]} k) = false.
Proof.
  assert (update_one parent "1" {[ "name" := JS.Str "Alice"; "phone" := JS.Str "" ]} seed
          = Some (seed, inr (Response 400 (BadRequest "All fields are required")))) as H
    by reflexivity.
  split; [exact H|].
  exact (proj1 (bad_request_only_for_falsy_fields parent "1" _ seed seed _ H eq_refl)).
Defined.

(** ** Statement text that carries a second statement *)

Lemma read_condition_stacked (rest : string) (ds : string) (n : Z) (t : table) :
  unsigned_decimal ds = Some n → rest = "" ∨ rest = " ORDER BY id ASC" →
  read_condition rest (ds ++ ";DELETE FROM " ++ entity t ++ ";--" ++ rest)
  = Some (n, Some t).
Proof.
  intros H Hrest. destruct (unsigned_decimal_digits ds n H) as [Hd _].
  unfold read_condition.
  rewrite (span_digits_app ds (";DELETE FROM " ++ entity t ++ ";--" ++ rest) Hd)
    by reflexivity.
  rewrite H. destruct Hrest as [-> | ->]; by destruct t.
Qed.

Lemma delete_all_rows (t : table) (db : database) :
  rows_of t (fst (delete_where t (λ _, True) db)) = [].
Proof. rewrite delete_where_rows. apply filter_none. intros r _ Hr. by apply Hr. Qed.

(** X15: the enrollment routes that splice the id into the statement
    text run whatever follows the id.  For every table [t] and every
    decimal [n], the id [n;DELETE FROM t;--] makes
    [DELETE /delete_enrollment/:id] answer 200 "deleted successfully"
    and [GET /get_enrollment/:id] answer 500, and either request leaves
    table [t] without a single row. *)
Theorem enrollment_id_can_stack_a_delete
    (t : table) (ds : string) (n : Z) (db : database) :
  unsigned_decimal ds = Some n →
  (∃ db',
     delete_enrollment (ds ++ ";DELETE FROM " ++ entity t ++ ";--") db
     = Some (db', inr (Response 200 (Deleted "Enrollment deleted successfully")))
     ∧ rows_of t db' = [])
  ∧ (∃ db',
       get_enrollment (ds ++ ";DELETE FROM " ++ entity t ++ ";--") db
       = Some (db', inr (Response 500 (Failure TypeError)))
       ∧ rows_of t db' = []).
Proof.
  intros H. split.
  - unfold delete_enrollment, try_catch, bind, simple_query, parse_simple,
      delete_enrollment_text.
    assert (strip_prefix "SELECT * FROM public.enrollment WHERE public.enrollment.id="
              ("DELETE FROM public.enrollment WHERE public.enrollment.id="
               ++ ds ++ ";DELETE FROM " ++ entity t ++ ";--") = None)
      as -> by reflexivity.
    rewrite strip_prefix_app.
    pose proof (read_condition_stacked "" ds n t H (or_introl eq_refl)) as Hc.
    assert (";--" ++ "" = ";--") as E by reflexivity. rewrite E in Hc. rewrite Hc.
    cbn [mbind option_bind run_stacked].
    destruct (delete_where enrollment _ db) as [db1 count].
    pose proof (delete_all_rows t db1) as Hall.
    destruct (delete_where t _ db1) as [db2 count2]. cbn.
    eexists. split; [reflexivity|exact Hall].
  - unfold get_enrollment, try_catch, bind, simple_query, parse_simple,
      select_enrollment_text.
    rewrite strip_prefix_app.
    pose proof (read_condition_stacked " ORDER BY id ASC" ds n t H (or_intror eq_refl))
      as Hc.
    assert ((ds ++ ";DELETE FROM " ++ entity t ++ ";--") ++ " ORDER BY id ASC"
            = ds ++ ";DELETE FROM " ++ entity t ++ ";--" ++ " ORDER BY id ASC") as ->.
    { by rewrite !append_assoc. }
    rewrite Hc. cbn [mbind option_bind run_stacked].
    pose proof (delete_all_rows t db) as Hall.
    destruct (delete_where t _ db) as [db2 count2]. cbn.
    eexists. split; [reflexivity|exact Hall].
Qed.

Lemma enrollment_id_can_stack_a_delete_witness :
  (∃ db',
     delete_enrollment ("7" ++ ";DELETE FROM " ++ entity child ++ ";--") seed
     = Some (db', inr (Response 200 (Deleted "Enrollment deleted successfully")))
     ∧ rows_of child db' = [])
  ∧ (∃ db',
       get_enrollment ("7" ++ ";DELETE FROM " ++ entity child ++ ";--") seed
       = Some (db', inr (Response 500 (Failure TypeError)))
       ∧ rows_of child db' = []).
Proof. exact (enrollment_id_can_stack_a_delete child "7" 7 seed eq_refl). Defined.

(** ** The port *)

Lemma append_inj_l (p a b : string) : p ++ a = p ++ b → a = b.
Proof.
  induction p as [|c p IH]; [done|]. rewrite !append_cons. intros [= E]. by apply IH.
Qed.

(** X16: the documentation and the log follow the [PORT] variable,
    the server does not.  The application always listens on port 3000;
    the server address written into the documentation, and the address
    logged at start-up, name that port exactly when [PORT] is unset,
    empty, or set to 3000. *)
Theorem documented_port_is_the_listening_port (env : option string) :
  (server_url env = "http://localhost:" ++ JS.toString (JS.Num listen_port)
   ↔ env = None ∨ env = Some "" ∨ env = Some "3000")
  ∧ (startup_message env
     = "Server running on http://localhost:" ++ JS.toString (JS.Num listen_port) ++ "/api"
     ↔ env = None ∨ env = Some "" ∨ env = Some "3000").
Proof.
  assert (JS.toString (PORT env) = JS.toString (JS.Num listen_port)
          ↔ env = None ∨ env = Some "" ∨ env = Some "3000") as Hp.
  { destruct env as [s|]; [|by split; [intros _; left|]].
    unfold PORT, or_value, env_PORT. cbn [JS.truthy].
    destruct (String.eqb_spec s "") as [->|Hne]; cbn [negb].
    - split; [intros _; right; by left|done].
    - cbn [JS.toString]. split.
      + intros ->. right. by right.
      + intros [?|[[= ->]|[= ->]]]; done. }
  split; rewrite <- Hp; unfold server_url, startup_message; split.
  - apply append_inj_l.
  - by intros ->.
  - intros E%append_inj_l.
    assert (∀ a b : string, a ++ "/api" = b ++ "/api" → a = b) as Hr.
    { induction a as [|x a IH]; intros [|y b]; try done.
      - rewrite append_cons. intros [= <- E']. by destruct b as [|? [|? [|? [|? ?]]]].
      - rewrite append_cons. intros [= -> E']. by destruct a as [|? [|? [|? [|? ?]]]].
      - rewrite !append_cons. intros [= -> E']. f_equal. by apply IH. }
    by apply Hr.
  - by intros ->.
Qed.

(** ** Instances of the list and read-only properties *)

Lemma list_count_is_length_witness :
  ∃ data,
    list_all child seed
    = Some (seed,
            inr (Response 200
                   (Listing (count_key child) (JS.Num (Z.of_nat (length data))) data)))
    ∧ length data = length (rows_of child seed).
Proof. exact (list_count_is_length child seed ltac:(done)). Defined.

Lemma get_requests_leave_database_witness :
  ∃ st' r,
    serve (Request GET "/get_enrollment/3" ∅) 1200000 (AppState seed []) = Some (st', r)
    ∧ db st' = seed.
Proof.
  eexists _, _. split; [reflexivity|].
  eapply (get_requests_leave_database (Request GET "/get_enrollment/3" ∅) 1200000
            (AppState seed []) _ _ eq_refl); [|reflexivity].
  intros id H. vm_compute in H. injection H as <-. by eexists.
Defined.

(** ** Lists after a delete *)

Lemma length_filter_unique {A} (f : A → Z) (n : Z) (l : list A) :
  NoDup (f <$> l) → n ∈ f <$> l → S (length (filter (λ x, f x ≠ n) l)) = length l.
Proof.
  induction l as [|x l IH]; intros Hnd Hin; [inversion Hin|].
  rewrite fmap_cons in Hnd, Hin. apply NoDup_cons in Hnd as [Hx Hnd].
  destruct (decide (f x = n)) as [E|E].
  - rewrite filter_cons_False by (intros Hne; by apply Hne).
    rewrite filter_all; [done|].
    intros y Hy Ey. apply Hx. rewrite E, <- Ey. by apply list_elem_of_fmap_2.
  - rewrite filter_cons_True by done. cbn. f_equal. apply IH; [done|].
    apply elem_of_cons in Hin as [->|]; done.
Qed.

(** X19: the list route follows a delete.  For every table, after a
    stored row has been deleted by its id (ids being unique), the list
    route returns one row less than before: the rows it returned
    before, without the one that carried the deleted id; and for the
    four tables whose count is a number, the count is the new length
    of [data]. *)
Theorem list_follows_delete (t : table) (id : string) (n : Z) (db : database) :
  reads_as t id n → NoDup (ids t db) → n ∈ ids t db →
  ∃ db' count count' data data',
    delete_one t id db = Some (db', inr (Response 200 (Deleted (deleted_message t))))
    ∧ list_all t db = Some (db, inr (Response 200 (Listing (count_key t) count data)))
    ∧ list_all t db' = Some (db', inr (Response 200 (Listing (count_key t) count' data')))
    ∧ length data = S (length data')
    ∧ (∀ r, r ∈ data' ↔ r ∈ data ∧ row_id r ≠ n)
    ∧ (t ≠ enrollment → count' = JS.Num (Z.of_nat (length data'))).
Proof.
  intros Hid Hnd Hin.
  exists (fst (delete_where t (λ k, k = n) db)). eexists _, _, _, _.
  split; [|split; [|split; [|split; [|split]]]].
  - rewrite (delete_one_run t id n db Hid), (bool_decide_eq_true_2 _ Hin).
    by destruct (decide (t = enrollment)).
  - apply list_all_listing.
  - apply list_all_listing.
  - rewrite !ordered_by_id_length, delete_where_rows.
    symmetry. by apply length_filter_unique.
  - intros r. unfold ordered_by_id. rewrite !merge_sort_Permutation, delete_where_rows.
    rewrite list_elem_of_filter. tauto.
  - intros Ht. rewrite decide_False by done.
    by rewrite parseInt_count_text, ordered_by_id_length.
Qed.

Lemma list_follows_delete_witness :
  ∃ db' count count' data data',
    delete_one classroom "3" seed
    = Some (db', inr (Response 200 (Deleted (deleted_message classroom))))
    ∧ list_all classroom seed
      = Some (seed, inr (Response 200 (Listing (count_key classroom) count data)))
    ∧ list_all classroom db'
      = Some (db', inr (Response 200 (Listing (count_key classroom) count' data')))
    ∧ length data = S (length data')
    ∧ (∀ r, r ∈ data' ↔ r ∈ data ∧ row_id r ≠ 3)
    ∧ (classroom ≠ enrollment → count' = JS.Num (Z.of_nat (length data'))).
Proof.
  apply (list_follows_delete classroom "3" 3 seed).
  - reflexivity.
  - decide_closed.
  - decide_closed.
Defined.
